(** * DocCare appointment booking: the storage modules and the page handlers

    A shallow embedding of the booking workflow of the DocCare client:
    - [lib/firestore.ts]      the Firestore tier (users, timeSlots, appointments),
    - [lib/tempStorage.ts]    the localStorage fallback tier,
    - [pages/BookAppointment] [loadAvailableSlots], [bookAppointment],
    - [pages/DoctorDashboard] [handleUpdateAppointmentStatus],
    - [pages/ManageAvailability] [handleAddSlot], [handleRemoveSlot],
    - [App.tsx], [components/ProtectedRoute.tsx] the routes,
    - [hooks/useAuth.ts], [pages/Login.tsx] registering and signing in.

    Firestore collections are finite maps from document ids to documents;
    localStorage arrays are lists (order and duplicates matter there).
    Asynchronous functions are computations in a state-and-exception
    monad over the backend; what a promise rejects with is a thrown
    [FirestoreError]. *)

From Stdlib Require Import String Ascii NArith.
From stdpp Require Import base option list gmap strings sorting.

(* ===================================================================== *)
(** ** Data model *)
(* ===================================================================== *)

Inductive Role := patient | doctor.
Inductive Gender := male | female | other.
Inductive Status := pending | confirmed | declined | completed.

#[global] Instance Role_eq_dec : EqDecision Role.
Proof. solve_decision. Defined.
#[global] Instance Gender_eq_dec : EqDecision Gender.
Proof. solve_decision. Defined.
#[global] Instance Status_eq_dec : EqDecision Status.
Proof. solve_decision. Defined.

(** The declarations of [../types] (User, Patient, Doctor, TimeSlot,
    Appointment, NotificationData), which the sources carry after
    [hooks/useAuth.ts]. A [number] that holds an age is a [nat] (the
    registration form stores an integer), and [patientGender?: string]
    holds a [Gender], the only values the booking writes there. *)
Module Patient.
Record t := mk { uid : string; email : string; name : string;
                 age : nat; gender : Gender }.
End Patient.

Module Doctor.
Record t := mk { uid : string; email : string; name : string;
                 specialty : string }.
End Doctor.

Module User.
Inductive t := Patient (p : Patient.t) | Doctor (d : Doctor.t).

Definition uid (u : t) : string :=
  match u with Patient p => Patient.uid p | Doctor d => Doctor.uid d end.
Definition email (u : t) : string :=
  match u with Patient p => Patient.email p | Doctor d => Doctor.email d end.
Definition name (u : t) : string :=
  match u with Patient p => Patient.name p | Doctor d => Doctor.name d end.
Definition role (u : t) : Role :=
  match u with Patient _ => patient | Doctor _ => doctor end.
(** [(user as any).age], [(user as any).gender], [doctor?.specialty]:
    [None] stands for JavaScript's [undefined]. *)
Definition age (u : t) : option nat :=
  match u with Patient p => Some (Patient.age p) | Doctor _ => None end.
Definition gender (u : t) : option Gender :=
  match u with Patient p => Some (Patient.gender p) | Doctor _ => None end.
Definition specialty (u : t) : option string :=
  match u with Patient _ => None | Doctor d => Some (Doctor.specialty d) end.
End User.

(** [Omit<TimeSlot, 'id'>] *)
Module TimeSlotData.
Record t := mk { doctorId : string; date : string; time : string;
                 isBooked : bool }.
Definition with_isBooked (b : bool) (d : t) : t :=
  mk (doctorId d) (date d) (time d) b.
End TimeSlotData.

Module TimeSlot.
Record t := mk { id : string; data : TimeSlotData.t }.
Definition doctorId (s : t) := TimeSlotData.doctorId (data s).
Definition date (s : t) := TimeSlotData.date (data s).
Definition time (s : t) := TimeSlotData.time (data s).
Definition isBooked (s : t) := TimeSlotData.isBooked (data s).
(** [{ ...slot, isBooked: b }] *)
Definition with_isBooked (b : bool) (s : t) : t :=
  mk (id s) (TimeSlotData.with_isBooked b (data s)).
End TimeSlot.

(** A document of the [timeSlots] collection: the slot data, [createdAt]
    written by [createTimeSlot], and [updatedAt] once
    [updateTimeSlotBookingStatus] has written it. *)
Module TimeSlotDoc.
Record t := mk { data : TimeSlotData.t; createdAt : nat;
                 updatedAt : option nat }.
Definition isBooked (d : t) := TimeSlotData.isBooked (data d).
End TimeSlotDoc.

(** [Omit<Appointment, 'id' | 'createdAt' | 'updatedAt'>] *)
Module AppointmentData.
Record t := mk {
  doctorId : string; patientId : string;
  doctorName : string; patientName : string;
  patientAge : option nat; patientGender : option Gender;
  specialty : string; date : string; time : string;
  status : Status }.
Definition with_status (s : Status) (a : t) : t :=
  mk (doctorId a) (patientId a) (doctorName a) (patientName a)
     (patientAge a) (patientGender a) (specialty a) (date a) (time a) s.
(** No field is [undefined]: the optional ones are present. *)
Definition defined (a : t) : bool :=
  match patientAge a, patientGender a with
  | Some _, Some _ => true
  | _, _ => false
  end.
End AppointmentData.

(** [Omit<Appointment, 'id'>], which is also what an [appointments]
    document holds. *)
Module AppointmentDoc.
Record t := mk { data : AppointmentData.t; createdAt : nat;
                 updatedAt : nat }.
Definition status (d : t) := AppointmentData.status (data d).
End AppointmentDoc.

Module Appointment.
Record t := mk { id : string; doc : AppointmentDoc.t }.
Definition data (a : t) := AppointmentDoc.data (doc a).
Definition status (a : t) := AppointmentData.status (data a).
End Appointment.

Inductive NotificationType := success | error | info.

Module NotificationData.
Record t := mk { show : bool; message : string; type : NotificationType }.
End NotificationData.

(* ===================================================================== *)
(** ** The Firestore backend *)
(* ===================================================================== *)

(** What a rejected promise carries: the [code] of a [FirestoreError].
    [not_found] is also what [updateDoc] rejects with when the document
    does not exist, and [invalid_argument] what a write rejects with
    when its data has an [undefined] field. *)
Inductive FirestoreError :=
| cancelled | unknown | invalid_argument | deadline_exceeded
| not_found | already_exists | permission_denied | resource_exhausted
| failed_precondition | aborted | out_of_range | unimplemented
| internal | unavailable | data_loss | unauthenticated.

#[global] Instance FirestoreError_eq_dec : EqDecision FirestoreError.
Proof. solve_decision. Defined.

(** The three collections, the server clock read by [serverTimestamp()],
    and the fate of the coming requests: [faults] lists, request by
    request, whether the backend serves it ([None]) or rejects it, and
    with what error; past the end of the list every request is served. *)
Record Firestore := mkFirestore {
  users : gmap string User.t;
  appointments : gmap string AppointmentDoc.t;
  timeSlots : gmap string TimeSlotDoc.t;
  now : nat;
  faults : list (option FirestoreError) }.

Definition set_users (m : gmap string User.t) (st : Firestore) :=
  mkFirestore m (appointments st) (timeSlots st) (now st) (faults st).
Definition set_appointments (m : gmap string AppointmentDoc.t) (st : Firestore) :=
  mkFirestore (users st) m (timeSlots st) (now st) (faults st).
Definition set_timeSlots (m : gmap string TimeSlotDoc.t) (st : Firestore) :=
  mkFirestore (users st) (appointments st) m (now st) (faults st).
Definition set_faults (fs : list (option FirestoreError)) (st : Firestore) :=
  mkFirestore (users st) (appointments st) (timeSlots st) (now st) fs.

Inductive Result (A : Type) :=
| Ok (a : A)
| Thrown (e : FirestoreError).
Arguments Ok {A} a.
Arguments Thrown {A} e.

Definition Fs (A : Type) : Type := Firestore -> Result A * Firestore.

Definition ret {A} (a : A) : Fs A := fun st => (Ok a, st).
Definition throw {A} (e : FirestoreError) : Fs A := fun st => (Thrown e, st).
Definition bind {A B} (m : Fs A) (k : A -> Fs B) : Fs B :=
  fun st => match m st with
            | (Ok a, st') => k a st'
            | (Thrown e, st') => (Thrown e, st')
            end.
(** [try { m } catch (error) { h error }] *)
Definition try_catch {A} (m : Fs A) (h : FirestoreError -> Fs A) : Fs A :=
  fun st => match m st with
            | (Ok a, st') => (Ok a, st')
            | (Thrown e, st') => h e st'
            end.

Notation "'await' x <- m ; k" := (bind m (fun x => k))
  (at level 10, x name, m at level 100, k at level 200).
Notation "'await_' m ; k" := (bind m (fun _ => k))
  (at level 10, m at level 100, k at level 200).

(** One round trip to the backend: served, or rejected as [faults] says. *)
Definition request : Fs unit := fun st =>
  match faults st with
  | [] => (Ok tt, st)
  | None :: fs => (Ok tt, set_faults fs st)
  | Some e :: fs => (Thrown e, set_faults fs st)
  end.

(** Whether the backend rejects the next request, the error it rejects
    it with when it does, and the backend once that request has been
    answered. *)
Definition rejected (st : Firestore) : bool :=
  match faults st with
  | Some _ :: _ => true
  | _ => false
  end.
Definition rejection (st : Firestore) : FirestoreError :=
  match faults st with
  | Some e :: _ => e
  | _ => unavailable
  end.
Definition after_request (st : Firestore) : Firestore :=
  set_faults (tail (faults st)) st.

(** [collection(db, NAME)]: how to read and replace one collection. *)
Record Collection (D : Type) := mkCollection {
  coll_get : Firestore -> gmap string D;
  coll_set : gmap string D -> Firestore -> Firestore }.
Arguments coll_get {D} c st.
Arguments coll_set {D} c m st.

Module COLLECTIONS.
Definition USERS : Collection User.t := mkCollection _ users set_users.
Definition APPOINTMENTS : Collection AppointmentDoc.t :=
  mkCollection _ appointments set_appointments.
Definition TIME_SLOTS : Collection TimeSlotDoc.t :=
  mkCollection _ timeSlots set_timeSlots.
End COLLECTIONS.

Section Primitives.
Context {D : Type} (c : Collection D).

(** [addDoc(c, data)]: the document is stored under the auto-generated
    id [newId]; [data] receives the value of [serverTimestamp()]. *)
Definition addDoc (newId : string) (data : nat -> D) : Fs string :=
  await_ request;
  fun st =>
    (Ok newId, coll_set c (<[newId := data (now st)]> (coll_get c st)) st).

(** [setDoc(doc(db, c, id), data)] creates or overwrites. *)
Definition setDoc (id : string) (data : nat -> D) : Fs unit :=
  await_ request;
  fun st => (Ok tt, coll_set c (<[id := data (now st)]> (coll_get c st)) st).

(** [updateDoc(doc(db, c, id), fields)] rejects when the document does
    not exist; [upd] writes the given fields over the stored document. *)
Definition updateDoc (id : string) (upd : nat -> D -> D) : Fs unit :=
  await_ request;
  fun st =>
    match coll_get c st !! id with
    | Some d =>
        (Ok tt, coll_set c (<[id := upd (now st) d]> (coll_get c st)) st)
    | None => (Thrown not_found, st)
    end.

(** [deleteDoc(doc(db, c, id))] succeeds whether or not the document
    exists. *)
Definition deleteDoc (id : string) : Fs unit :=
  await_ request;
  fun st => (Ok tt, coll_set c (delete id (coll_get c st)) st).

(** [getDoc(doc(db, c, id))]; [None] is a snapshot with [exists() = false]. *)
Definition getDoc (id : string) : Fs (option D) :=
  await_ request;
  fun st => (Ok (coll_get c st !! id), st).

(** A write whose data has an [undefined] field is refused before any
    request is sent: [db] is [getFirestore(app)], which does not ignore
    undefined properties. [defined] says that the data has none. *)
Definition validated {A} (defined : bool) (m : Fs A) : Fs A :=
  if defined then m else throw invalid_argument.

(** [getDocs(query(c, where..., orderBy...))]: the documents satisfying
    the [where] clauses, in the order [le] of the [orderBy] clauses. *)
Definition getDocs (wh : D -> bool) (le : relation (string * D))
    `{!RelDecision le} : Fs (list (string * D)) :=
  await_ request;
  fun st =>
    (Ok (merge_sort le (filter (fun kd => wh kd.2 = true)
                               (map_to_list (coll_get c st)))), st).
End Primitives.

(* ===================================================================== *)
(** ** The order of [orderBy('date'), orderBy('time')] *)
(* ===================================================================== *)

(** Firestore compares string fields byte by byte, which is
    [String.compare]; documents that agree on every [orderBy] field come
    in the order of their document ids. *)
Definition string_le (a b : string) : Prop := String.leb a b = true.
Definition string_lt (a b : string) : Prop := String.compare a b = Lt.

(** Ascending by [(date, time)]: what the two [orderBy] clauses ask for. *)
Definition date_time_le (a b : TimeSlotData.t) : Prop :=
  string_lt (TimeSlotData.date a) (TimeSlotData.date b) \/
  (TimeSlotData.date a = TimeSlotData.date b /\
   string_le (TimeSlotData.time a) (TimeSlotData.time b)).

Definition slot_leb (x y : string * TimeSlotDoc.t) : bool :=
  let a := TimeSlotDoc.data x.2 in
  let b := TimeSlotDoc.data y.2 in
  match String.compare (TimeSlotData.date a) (TimeSlotData.date b) with
  | Lt => true
  | Gt => false
  | Eq =>
      match String.compare (TimeSlotData.time a) (TimeSlotData.time b) with
      | Lt => true
      | Gt => false
      | Eq => String.leb x.1 y.1
      end
  end.

Definition slot_order : relation (string * TimeSlotDoc.t) :=
  fun x y => slot_leb x y = true.

#[global] Instance slot_order_dec : RelDecision slot_order.
Proof. intros x y. unfold slot_order. apply _. Defined.

(* ===================================================================== *)
(** ** [lib/firestore.ts] *)
(* ===================================================================== *)

Import COLLECTIONS.

(** Every exported function is [try { ... } catch (error) {
    console.error(...); throw error; }] or, for the readers, [catch {
    return <empty>; }]. *)
Definition rethrow {A} (m : Fs A) : Fs A := try_catch m throw.

(** [a || dflt] on an optional string: [undefined] and [''] are falsy. *)
Definition or_default (a : option string) (dflt : string) : string :=
  match a with
  | Some EmptyString | None => dflt
  | Some s => s
  end.

(** [Promise.all(l.map(f))] *)
Fixpoint promise_all {A B} (f : A -> Fs B) (l : list A) : Fs (list B) :=
  match l with
  | [] => ret []
  | a :: l' => await b <- f a; await bs <- promise_all f l'; ret (b :: bs)
  end.

(** The user documents carry [createdAt] and [updatedAt] as well; nothing
    reads them, and the model leaves them out. *)
Definition createUserDocument (userData : User.t) : Fs User.t :=
  rethrow (await_ setDoc USERS (User.uid userData) (fun _ => userData);
           ret userData).

(** [{ uid, ...userSnap.data() }] is the stored document: the documents
    of [users] are written by [createUserDocument] under their own
    [uid]. *)
Definition getUserDocument (uid : string) : Fs (option User.t) :=
  try_catch (await userSnap <- getDoc USERS uid; ret userSnap)
            (fun _ => ret None).

Definition createTimeSlot (newId : string) (timeSlotData : TimeSlotData.t)
    : Fs TimeSlot.t :=
  rethrow (await docRef <- addDoc TIME_SLOTS newId
                             (fun t => TimeSlotDoc.mk timeSlotData t None);
           ret (TimeSlot.mk docRef timeSlotData)).

(** [{ id: doc.id, ...doc.data() } as TimeSlot] *)
Definition toTimeSlot (kd : string * TimeSlotDoc.t) : TimeSlot.t :=
  TimeSlot.mk kd.1 (TimeSlotDoc.data kd.2).

Definition getDoctorTimeSlots (doctorId : string) : Fs (list TimeSlot.t) :=
  try_catch
    (await querySnapshot <-
       getDocs TIME_SLOTS
         (fun d => bool_decide (TimeSlotData.doctorId (TimeSlotDoc.data d) = doctorId)
                   && bool_decide (TimeSlotDoc.isBooked d = false))
         slot_order;
     ret (map toTimeSlot querySnapshot))
    (fun _ => ret []).

(** [TimeSlot & { doctorName: string; specialty: string }] *)
Module SlotWithDoctorInfo.
Record t := mk { slot : TimeSlot.t; doctorName : string; specialty : string }.
End SlotWithDoctorInfo.

Definition getAvailableTimeSlots : Fs (list SlotWithDoctorInfo.t) :=
  try_catch
    (await slotsSnapshot <-
       getDocs TIME_SLOTS
         (fun d => bool_decide (TimeSlotDoc.isBooked d = false))
         slot_order;
     let slots := map toTimeSlot slotsSnapshot in
     promise_all
       (fun slot =>
          await doctor <- getUserDocument (TimeSlot.doctorId slot);
          ret (SlotWithDoctorInfo.mk slot
                 (or_default (User.name <$> doctor) "Unknown Doctor")
                 (or_default (doctor ≫= User.specialty) "General")))
       slots)
    (fun _ => ret []).

Definition deleteTimeSlot (slotId : string) : Fs unit :=
  rethrow (deleteDoc TIME_SLOTS slotId).

Definition updateTimeSlotBookingStatus (slotId : string) (isBooked : bool)
    : Fs unit :=
  rethrow (updateDoc TIME_SLOTS slotId
             (fun t d => TimeSlotDoc.mk
                           (TimeSlotData.with_isBooked isBooked (TimeSlotDoc.data d))
                           (TimeSlotDoc.createdAt d) (Some t))).

(** The returned object carries the client's [new Date()]; the model has
    one clock, so it is the stored document under its id. [addDoc]
    refuses the data when [patientAge] or [patientGender] is
    [undefined]. *)
Definition createAppointment (newId : string) (appointmentData : AppointmentData.t)
    : Fs Appointment.t :=
  rethrow (fun st =>
    (await docRef <- validated (AppointmentData.defined appointmentData)
                       (addDoc APPOINTMENTS newId
                          (fun t => AppointmentDoc.mk appointmentData t t));
     ret (Appointment.mk docRef
            (AppointmentDoc.mk appointmentData (now st) (now st)))) st).

Definition updateAppointmentStatus (appointmentId : string) (status : Status)
    : Fs unit :=
  rethrow (updateDoc APPOINTMENTS appointmentId
             (fun t d => AppointmentDoc.mk
                           (AppointmentData.with_status status (AppointmentDoc.data d))
                           (AppointmentDoc.createdAt d) t)).

(* ===================================================================== *)
(** ** The page handlers *)
(* ===================================================================== *)

Definition notify (message : string) (type : NotificationType)
    : NotificationData.t :=
  NotificationData.mk true message type.

(** What a handler leaves on the page: nothing when its guard returns
    early, otherwise the notification it shows. *)
Definition Handler : Type := Fs (option NotificationData.t).

Module DoctorWithSlots.
Record t := mk { doctor : Doctor.t; availableSlots : list TimeSlot.t }.
Definition uid (d : t) := Doctor.uid (doctor d).
Definition name (d : t) := Doctor.name (doctor d).
Definition specialty (d : t) := Doctor.specialty (doctor d).
End DoctorWithSlots.

(** [pages/BookAppointment.tsx]. [selectedDoctor] and [selectedTimeSlot]
    are page state: values read from the store when the page loaded.
    [appointmentData] is the object literal [bookAppointment] passes to
    [createAppointment]. For a user who is not a patient it leaves
    [patientAge] and [patientGender] undefined, and [createAppointment]
    refuses it; the router mounts the page for patients only
    ([ProtectedRoute requiredRole="patient"]), and the properties of
    booking below are stated for patients. *)
Definition appointmentData (selectedDoctor : DoctorWithSlots.t)
    (selectedTimeSlot : TimeSlot.t) (user : User.t) : AppointmentData.t :=
  AppointmentData.mk
    (DoctorWithSlots.uid selectedDoctor)
    (User.uid user)
    (DoctorWithSlots.name selectedDoctor)
    (User.name user)
    (if bool_decide (User.role user = patient) then User.age user else None)
    (if bool_decide (User.role user = patient) then User.gender user else None)
    (DoctorWithSlots.specialty selectedDoctor)
    (TimeSlot.date selectedTimeSlot)
    (TimeSlot.time selectedTimeSlot)
    pending.

Definition bookAppointment
    (selectedDoctor : option DoctorWithSlots.t)
    (selectedTimeSlot : option TimeSlot.t)
    (user : option User.t) (newId : string) : Handler :=
  match selectedDoctor, selectedTimeSlot, user with
  | Some selectedDoctor, Some selectedTimeSlot, Some user =>
      try_catch
        (await_ createAppointment newId
           (appointmentData selectedDoctor selectedTimeSlot user);
         await_ updateTimeSlotBookingStatus (TimeSlot.id selectedTimeSlot) true;
         ret (Some (notify "Appointment booked successfully!" success)))
        (fun _ =>
           ret (Some (notify "Failed to book appointment. Please try again." error)))
  | _, _, _ => ret None
  end.

Definition status_name (s : Status) : string :=
  match s with
  | pending => "pending"
  | confirmed => "confirmed"
  | declined => "declined"
  | completed => "completed"
  end.

(** [pages/DoctorDashboard.tsx] *)
Definition handleUpdateAppointmentStatus (appointmentId : string)
    (status : Status) : Handler :=
  try_catch
    (await_ updateAppointmentStatus appointmentId status;
     ret (Some (notify ("Appointment " +:+ status_name status +:+ " successfully")
                       success)))
    (fun _ => ret (Some (notify "Failed to update appointment" error))).

(** The dashboard renders the Confirm and Decline buttons for an
    appointment it displays as pending, and a status badge otherwise. *)
Definition offeredStatusUpdates (displayed : Appointment.t) : list Status :=
  if bool_decide (Appointment.status displayed = pending)
  then [confirmed; declined]
  else [].

(** [pages/ManageAvailability.tsx] *)
Module NewSlot.
Record t := mk { date : string; time : string }.
End NewSlot.

Definition handleAddSlot (newSlot : NewSlot.t) (user : option User.t)
    (newId : string) : Handler :=
  match user with
  | Some user =>
      if bool_decide (NewSlot.date newSlot = "")
         || bool_decide (NewSlot.time newSlot = "")
      then ret None
      else
        try_catch
          (await_ createTimeSlot newId
             (TimeSlotData.mk (User.uid user) (NewSlot.date newSlot)
                (NewSlot.time newSlot) false);
           ret (Some (notify "Available slot added successfully" success)))
          (fun _ => ret (Some (notify "Failed to add slot" error)))
  | None => ret None
  end.

Definition handleRemoveSlot (slotId : string) : Handler :=
  try_catch
    (await_ deleteTimeSlot slotId;
     ret (Some (notify "Slot removed successfully" success)))
    (fun _ => ret (Some (notify "Failed to remove slot" error))).

(** The page renders the remove button of a slot only while it displays
    the slot as not booked. *)
Definition removeOffered (displayed : TimeSlot.t) : bool :=
  negb (TimeSlot.isBooked displayed).

(* ===================================================================== *)
(** ** [lib/tempStorage.ts]: the localStorage tier *)
(* ===================================================================== *)

(** The arrays kept under the keys of [STORAGE_KEYS]; [getFromStorage]
    reads one (the empty array when the key is absent), [saveToStorage]
    replaces one. The functions of this tier are [async] but send no
    request: they are state transformers, and the storage takes every
    write. *)
Record LocalStorage := mkLocalStorage {
  doccare_users : list User.t;
  doccare_appointments : list Appointment.t;
  doccare_time_slots : list TimeSlot.t;
  doccare_current_user : option User.t }.

Definition Temp (A : Type) : Type := LocalStorage -> A * LocalStorage.

Definition save_APPOINTMENTS (data : list Appointment.t) (ls : LocalStorage) :=
  mkLocalStorage (doccare_users ls) data (doccare_time_slots ls)
                 (doccare_current_user ls).
Definition save_TIME_SLOTS (data : list TimeSlot.t) (ls : LocalStorage) :=
  mkLocalStorage (doccare_users ls) (doccare_appointments ls) data
                 (doccare_current_user ls).

(** [newId] is the id built from [Date.now()] and [Math.random()]. *)
Definition tempCreateTimeSlot (newId : string) (timeSlot : TimeSlotData.t)
    : Temp TimeSlot.t := fun ls =>
  let timeSlots := doccare_time_slots ls in
  let newTimeSlot := TimeSlot.mk newId timeSlot in
  (newTimeSlot, save_TIME_SLOTS (timeSlots ++ [newTimeSlot]) ls).

(** [doctorId ? ... : timeSlots]: an absent and an empty [doctorId] are
    both falsy. *)
Definition tempGetTimeSlots (doctorId : option string) : Temp (list TimeSlot.t) :=
  fun ls =>
  let timeSlots := doccare_time_slots ls in
  (match doctorId with
   | Some EmptyString | None => timeSlots
   | Some doctorId =>
       filter (fun slot => TimeSlot.doctorId slot = doctorId) timeSlots
   end, ls).

Definition tempGetAvailableSlots (doctorId : option string)
    : Temp (list TimeSlot.t) := fun ls =>
  let '(timeSlots, ls) := tempGetTimeSlots doctorId ls in
  (filter (fun slot => TimeSlot.isBooked slot = false) timeSlots, ls).

Definition tempDeleteTimeSlot (id : string) : Temp bool := fun ls =>
  let timeSlots := doccare_time_slots ls in
  let filteredSlots := filter (fun slot => TimeSlot.id slot ≠ id) timeSlots in
  if bool_decide (length filteredSlots < length timeSlots)
  then (true, save_TIME_SLOTS filteredSlots ls)
  else (false, ls).

Definition tempCreateAppointment (newId : string) (appointment : AppointmentDoc.t)
    : Temp Appointment.t := fun ls =>
  let appointments := doccare_appointments ls in
  let newAppointment := Appointment.mk newId appointment in
  let ls := save_APPOINTMENTS (appointments ++ [newAppointment]) ls in
  let timeSlots := doccare_time_slots ls in
  let a := AppointmentDoc.data appointment in
  let updatedSlots :=
    map (fun slot =>
           if bool_decide (TimeSlot.doctorId slot = AppointmentData.doctorId a)
              && bool_decide (TimeSlot.date slot = AppointmentData.date a)
              && bool_decide (TimeSlot.time slot = AppointmentData.time a)
           then TimeSlot.with_isBooked true slot
           else slot)
        timeSlots in
  (newAppointment, save_TIME_SLOTS updatedSlots ls).

(* ===================================================================== *)
(** ** Several book calls at once *)
(* ===================================================================== *)

(** A call of [bookAppointment] by a patient sends two requests, one per
    [await]; the backend serves each request atomically, and requests of
    other calls (other browser sessions) may be served in between. *)
Definition bookAppointment_requests (selectedDoctor : DoctorWithSlots.t)
    (selectedTimeSlot : TimeSlot.t) (user : User.t) (newId : string)
    : list (Fs unit) :=
  [ (await_ createAppointment newId
       (appointmentData selectedDoctor selectedTimeSlot user);
     ret tt);
    updateTimeSlotBookingStatus (TimeSlot.id selectedTimeSlot) true ].

(** A call in flight: the requests it still has to send, and whether one
    of its requests was rejected (the [catch] block ran). *)
Record Call := mkCall { todo : list (Fs unit); caught : bool }.

Definition start (requests : list (Fs unit)) : Call := mkCall requests false.

Definition succeeded (c : Call) : Prop := todo c = [] ∧ caught c = false.
Definition failed (c : Call) : Prop := caught c = true.

(** The call sends its next request. *)
Definition advance (c : Call) (st : Firestore) : Call * Firestore :=
  match todo c with
  | [] => (c, st)
  | m :: rest =>
      match m st with
      | (Ok _, st') => (mkCall rest false, st')
      | (Thrown _, st') => (mkCall [] true, st')
      end
  end.


(** All the ways to interleave the requests [l1] of one call with the
    requests [l2] of another, each call's requests in program order. *)
Fixpoint interleavings {A} (l1 : list A) : list A -> list (list A) :=
  fix inner (l2 : list A) : list (list A) :=
    match l1, l2 with
    | [], _ => [l2]
    | _, [] => [l1]
    | a :: l1', b :: l2' =>
        map (cons a) (interleavings l1' l2) ++ map (cons b) (inner l2')
    end.

(** Run one call to its end with no other call in between. *)
Fixpoint run_call (fuel : nat) (c : Call) (st : Firestore) : Call * Firestore :=
  match fuel with
  | 0 => (c, st)
  | S fuel' => let '(c', st') := advance c st in run_call fuel' c' st'
  end.

(* ===================================================================== *)
(** ** Histories of operations on the Firestore tier *)
(* ===================================================================== *)

(** The writers exported by [lib/firestore.ts], with the arguments of one
    call, and what the environment does between calls: time passes, and
    the fate of the coming requests is decided. *)
Inductive Op :=
| CreateUserDocument (userData : User.t)
| CreateTimeSlot (newId : string) (timeSlotData : TimeSlotData.t)
| DeleteTimeSlot (slotId : string)
| UpdateTimeSlotBookingStatus (slotId : string) (isBooked : bool)
| CreateAppointment (newId : string) (appointmentData : AppointmentData.t)
| UpdateAppointmentStatus (appointmentId : string) (status : Status)
| TimePasses (later : nat)
| NextFaults (fs : list (option FirestoreError)).

Definition exec (op : Op) (st : Firestore) : Firestore :=
  match op with
  | CreateUserDocument u => (createUserDocument u st).2
  | CreateTimeSlot newId d => (createTimeSlot newId d st).2
  | DeleteTimeSlot slotId => (deleteTimeSlot slotId st).2
  | UpdateTimeSlotBookingStatus slotId b =>
      (updateTimeSlotBookingStatus slotId b st).2
  | CreateAppointment newId d => (createAppointment newId d st).2
  | UpdateAppointmentStatus appointmentId s =>
      (updateAppointmentStatus appointmentId s st).2
  | TimePasses later =>
      mkFirestore (users st) (appointments st) (timeSlots st)
                  (now st + later) (faults st)
  | NextFaults fs => set_faults fs st
  end.

Definition exec_all (ops : list Op) (st : Firestore) : Firestore :=
  foldl (fun st op => exec op st) st ops.

(** The fields of an appointment that the booking copies from the doctor,
    the patient and the slot: everything but [status]. *)
Definition snapshot (a : AppointmentData.t)
    : string * string * string * string * option nat * option Gender
      * string * string * string :=
  (AppointmentData.doctorId a, AppointmentData.patientId a,
   AppointmentData.doctorName a, AppointmentData.patientName a,
   AppointmentData.patientAge a, AppointmentData.patientGender a,
   AppointmentData.specialty a, AppointmentData.date a,
   AppointmentData.time a).


(** The slot and the appointment agree on [(doctorId, date, time)]: the
    test of [tempCreateAppointment]. *)
Definition same_tuple (slot : TimeSlot.t) (a : AppointmentData.t) : Prop :=
  TimeSlot.doctorId slot = AppointmentData.doctorId a ∧
  TimeSlot.date slot = AppointmentData.date a ∧
  TimeSlot.time slot = AppointmentData.time a.

(** How a handler's outcome reads on the page: an error notification or
    a success notification. *)
Definition reports_failure (r : Result (option NotificationData.t)) : Prop :=
  match r with
  | Ok (Some n) => NotificationData.type n = error
  | Ok None => False
  | Thrown _ => True
  end.
Definition reports_success (r : Result (option NotificationData.t)) : Prop :=
  match r with
  | Ok (Some n) => NotificationData.type n = success
  | _ => False
  end.

(** The document [updateTimeSlotBookingStatus] leaves in place of [d]. *)
Definition marked (isBooked : bool) (t : nat) (d : TimeSlotDoc.t) : TimeSlotDoc.t :=
  TimeSlotDoc.mk (TimeSlotData.with_isBooked isBooked (TimeSlotDoc.data d))
                 (TimeSlotDoc.createdAt d) (Some t).

(** The documents a query on [timeSlots] with the [where] clauses [wh]
    selects, in the order of the two [orderBy] clauses; those of
    [getAvailableTimeSlots]; and the entry that function builds for a slot
    from the [users] collection. *)
Definition selected_documents (wh : TimeSlotDoc.t -> bool)
    (slots : gmap string TimeSlotDoc.t) : list (string * TimeSlotDoc.t) :=
  merge_sort slot_order
    (filter (fun kd => wh kd.2 = true) (map_to_list slots)).

Definition open_documents (slots : gmap string TimeSlotDoc.t)
    : list (string * TimeSlotDoc.t) :=
  selected_documents
    (fun d => bool_decide (TimeSlotDoc.isBooked d = false)) slots.

Definition withDoctorInfo (us : gmap string User.t) (slot : TimeSlot.t)
    : SlotWithDoctorInfo.t :=
  SlotWithDoctorInfo.mk slot
    (or_default (User.name <$> us !! TimeSlot.doctorId slot) "Unknown Doctor")
    (or_default (us !! TimeSlot.doctorId slot ≫= User.specialty) "General").

(** [l] lists exactly the slots of the collection [m] whose document
    satisfies [P], each once, in ascending order of [(date, time)]. *)
Definition exactly_sorted (P : TimeSlotDoc.t -> Prop)
    (m : gmap string TimeSlotDoc.t) (l : list TimeSlot.t) : Prop :=
  (∀ slot, slot ∈ l ↔
           ∃ d, m !! TimeSlot.id slot = Some d ∧
                TimeSlotDoc.data d = TimeSlot.data slot ∧ P d) ∧
  NoDup (map TimeSlot.id l) ∧
  StronglySorted date_time_le (map TimeSlot.data l).

(* ===================================================================== *)
(** ** Proof tactics *)
(* ===================================================================== *)

(** Unfold the Firestore functions down to the state they act on. *)
Ltac fs_unfold :=
  unfold createUserDocument, getUserDocument, createTimeSlot, deleteTimeSlot,
    updateTimeSlotBookingStatus, createAppointment, updateAppointmentStatus,
    validated, addDoc, setDoc, updateDoc, deleteDoc, getDoc, getDocs,
    rethrow, try_catch, bind, ret, throw, request,
    rejected, rejection, after_request.

(** Case on the fate of the next request of a backend given by its fields. *)
Ltac fs_cases st :=
  let f := fresh "f" in
  destruct st as [? ? ? ? f]; simpl in *;
  destruct f as [|[?|] ?]; simpl in *.

(* ===================================================================== *)
(** ** Scenarios *)
(* ===================================================================== *)

(** Provider D1, patients P1 and P2, and D1's slot of 2024-06-01 at 09:00,
    as in the scenarios of section 8 of the specification. *)
Module Scenario.
Definition D1 : Doctor.t :=
  Doctor.mk "D1" "d1@doccare.com" "Dr. Sarah Johnson" "cardiology".
Definition P1 : Patient.t :=
  Patient.mk "P1" "john.smith@example.com" "John Smith" 35 male.
Definition P2 : Patient.t :=
  Patient.mk "P2" "maria.garcia@example.com" "Maria Garcia" 28 female.

Definition slot_data : TimeSlotData.t :=
  TimeSlotData.mk "D1" "2024-06-01" "09:00" false.
Definition slot : TimeSlot.t := TimeSlot.mk "s1" slot_data.
Definition booked_slot : TimeSlot.t := TimeSlot.with_isBooked true slot.

Definition all_users : gmap string User.t :=
  <["D1" := User.Doctor D1]> (<["P1" := User.Patient P1]>
    (<["P2" := User.Patient P2]> ∅)).

(** The slot is published and open; every request is served. *)
Definition published : Firestore :=
  mkFirestore all_users ∅ {["s1" := TimeSlotDoc.mk slot_data 90 None]} 100 [].

(** What the booking page of a patient holds once it has loaded from
    [published] and the patient has picked D1 and the slot. *)
Definition selectedDoctor : DoctorWithSlots.t := DoctorWithSlots.mk D1 [slot].

(** P1, and P2, press the book button on that page; the appointment gets
    the id a1, respectively a2. *)
Definition P1_books : Handler :=
  bookAppointment (Some selectedDoctor) (Some slot) (Some (User.Patient P1)) "a1".
Definition P2_books : Handler :=
  bookAppointment (Some selectedDoctor) (Some slot) (Some (User.Patient P2)) "a2".

(** P1 has booked the slot, the appointment is pending. *)
Definition booked : Firestore := (P1_books published).2.

(** The doctor has withdrawn the slot while the patient's page still
    shows it. *)
Definition withdrawn : Firestore :=
  (deleteTimeSlot "s1" published).2.


(** The appointment as a dashboard that has loaded from [booked]
    displays it. *)
Definition displayed_appointment : Appointment.t :=
  Appointment.mk "a1"
    (AppointmentDoc.mk
       (appointmentData selectedDoctor slot (User.Patient P1)) 100 100).

(** The doctor has declined P1's appointment. *)
Definition declined_appointment : Firestore :=
  (handleUpdateAppointmentStatus "a1" declined booked).2.

(** localStorage holding two open slots of D1, the later day first. *)
Definition later_slot : TimeSlot.t :=
  TimeSlot.mk "s2" (TimeSlotData.mk "D1" "2024-06-02" "09:00" false).
Definition unsorted_storage : LocalStorage :=
  mkLocalStorage [] [] [later_slot; slot] None.

(** localStorage holding the slot twice under two ids, and a slot of
    another day. *)
Definition twin_slot : TimeSlot.t := TimeSlot.mk "s1bis" slot_data.
Definition twin_storage : LocalStorage :=
  mkLocalStorage [] [] [slot; later_slot; twin_slot] None.

(** D1 changes specialty: the profile document is written again. *)
Definition D1_retrained : Doctor.t :=
  Doctor.mk "D1" "d1@doccare.com" "Dr. Sarah Johnson" "dermatology".

(** What happens after the booking: the doctor confirms, time passes,
    the doctor's profile changes, the slot is withdrawn, P2 books another
    appointment, and the first appointment is completed. *)
Definition history : list Op :=
  [ UpdateAppointmentStatus "a1" confirmed;
    TimePasses 24;
    CreateUserDocument (User.Doctor D1_retrained);
    DeleteTimeSlot "s1";
    CreateAppointment "a2"
      (appointmentData selectedDoctor later_slot (User.Patient P2));
    UpdateAppointmentStatus "a1" completed ].
End Scenario.

(* ===================================================================== *)
(** ** [lib/tempStorage.ts]: users, session and appointments *)
(* ===================================================================== *)

(** A call that returns, or throws [new Error(message)]. *)
Inductive Outcome (A : Type) :=
| Returned (a : A)
| Raised (message : string).
Arguments Returned {A} a.
Arguments Raised {A} message.

Definition save_USERS (data : list User.t) (ls : LocalStorage) :=
  mkLocalStorage data (doccare_appointments ls) (doccare_time_slots ls)
                 (doccare_current_user ls).

(** [users.find(user => user.uid === userData.uid ||
    user.email === userData.email)] decides; the new user goes last. *)
Definition tempCreateUser (userData : User.t) : Temp (Outcome User.t) :=
  fun ls =>
  let users := doccare_users ls in
  match list_find (fun user => User.uid user = User.uid userData ∨
                               User.email user = User.email userData) users with
  | Some existingUser => (Raised "User already exists", ls)
  | None =>
      let newUser := userData in
      (Returned newUser, save_USERS (users ++ [newUser]) ls)
  end.

(** [users.find(...) || null] *)
Definition tempGetUser (uid : string) : Temp (option User.t) := fun ls =>
  (snd <$> list_find (fun user => User.uid user = uid) (doccare_users ls), ls).

Definition tempGetUserByEmail (email : string) : Temp (option User.t) :=
  fun ls =>
  (snd <$> list_find (fun user => User.email user = email) (doccare_users ls),
   ls).

(** [setItem] for a user, [removeItem] for [null]. *)
Definition tempSetCurrentUser (user : option User.t) (ls : LocalStorage)
    : LocalStorage :=
  mkLocalStorage (doccare_users ls) (doccare_appointments ls)
                 (doccare_time_slots ls) user.

Definition tempGetCurrentUser (ls : LocalStorage) : option User.t :=
  doccare_current_user ls.

(** [if (!userId) return appointments]; then the filter compares
    [patientId] when [role === 'patient'] and [doctorId] for every other
    [role], the absent one included. *)
Definition tempGetAppointments (userId : option string) (role : option Role)
    : Temp (list Appointment.t) := fun ls =>
  let appointments := doccare_appointments ls in
  (match userId with
   | Some EmptyString | None => appointments
   | Some userId =>
       filter (fun appointment =>
                 (if bool_decide (role = Some patient)
                  then AppointmentData.patientId (Appointment.data appointment)
                  else AppointmentData.doctorId (Appointment.data appointment))
                 = userId)
              appointments
   end, ls).

(** [Partial<Appointment>]: [None] is a key that the object does not
    have. [patientAge] and [patientGender] are optional in [Appointment],
    so the object may have them with the value [undefined]. *)
Module AppointmentUpdates.
Record t := mk {
  id : option string;
  doctorId : option string; patientId : option string;
  doctorName : option string; patientName : option string;
  patientAge : option (option nat); patientGender : option (option Gender);
  specialty : option string; date : option string; time : option string;
  status : option Status;
  createdAt : option nat; updatedAt : option nat }.

(** [{}] and [{ status }] *)
Definition none : t :=
  mk None None None None None None None None None None None None None.
Definition only_status (s : Status) : t :=
  mk None None None None None None None None None None (Some s) None None.
End AppointmentUpdates.

(** [{ ...appointment, ...updates }] *)
Definition spread_updates (appointment : Appointment.t)
    (updates : AppointmentUpdates.t) : Appointment.t :=
  let a := Appointment.data appointment in
  Appointment.mk
    (default (Appointment.id appointment) (AppointmentUpdates.id updates))
    (AppointmentDoc.mk
       (AppointmentData.mk
          (default (AppointmentData.doctorId a)
                   (AppointmentUpdates.doctorId updates))
          (default (AppointmentData.patientId a)
                   (AppointmentUpdates.patientId updates))
          (default (AppointmentData.doctorName a)
                   (AppointmentUpdates.doctorName updates))
          (default (AppointmentData.patientName a)
                   (AppointmentUpdates.patientName updates))
          (default (AppointmentData.patientAge a)
                   (AppointmentUpdates.patientAge updates))
          (default (AppointmentData.patientGender a)
                   (AppointmentUpdates.patientGender updates))
          (default (AppointmentData.specialty a)
                   (AppointmentUpdates.specialty updates))
          (default (AppointmentData.date a) (AppointmentUpdates.date updates))
          (default (AppointmentData.time a) (AppointmentUpdates.time updates))
          (default (AppointmentData.status a)
                   (AppointmentUpdates.status updates)))
       (default (AppointmentDoc.createdAt (Appointment.doc appointment))
                (AppointmentUpdates.createdAt updates))
       (default (AppointmentDoc.updatedAt (Appointment.doc appointment))
                (AppointmentUpdates.updatedAt updates))).

(** [findIndex] gives the first appointment with the id; [-1] is [None]. *)
Definition tempUpdateAppointment (id : string) (updates : AppointmentUpdates.t)
    : Temp (option Appointment.t) := fun ls =>
  let appointments := doccare_appointments ls in
  match list_find (fun apt => Appointment.id apt = id) appointments with
  | None => (None, ls)
  | Some (appointmentIndex, appointment) =>
      let updatedAppointment := spread_updates appointment updates in
      (Some updatedAppointment,
       save_APPOINTMENTS (<[appointmentIndex := updatedAppointment]> appointments)
                         ls)
  end.

Definition tempGetDoctors : Temp (list User.t) := fun ls =>
  (filter (fun user => User.role user = doctor) (doccare_users ls), ls).

(** [Object.values(STORAGE_KEYS).forEach(key => removeItem(key))] *)
Definition tempClearAllData (ls : LocalStorage) : LocalStorage :=
  mkLocalStorage [] [] [] None.

(* ===================================================================== *)
(** ** [lib/firestore.ts]: the other readers *)
(* ===================================================================== *)

(** [orderBy('name')] on [users]: ascending by name, then by document
    id. *)
Definition user_leb (x y : string * User.t) : bool :=
  match String.compare (User.name x.2) (User.name y.2) with
  | Lt => true
  | Gt => false
  | Eq => String.leb x.1 y.1
  end.

Definition user_order : relation (string * User.t) :=
  fun x y => user_leb x y = true.

#[global] Instance user_order_dec : RelDecision user_order.
Proof. intros x y. unfold user_order. apply _. Defined.

(** [{ uid: doc.id, ...doc.data() }]: the stored document, as in
    [getUserDocument]. *)
Definition getDoctors : Fs (list User.t) :=
  try_catch
    (await querySnapshot <-
       getDocs USERS (fun u => bool_decide (User.role u = doctor)) user_order;
     ret (map snd querySnapshot))
    (fun _ => ret []).

(** [orderBy('date', 'desc')] on [appointments]: descending by date, then
    descending by document id. *)
Definition appointment_leb (x y : string * AppointmentDoc.t) : bool :=
  match String.compare (AppointmentData.date (AppointmentDoc.data y.2))
                       (AppointmentData.date (AppointmentDoc.data x.2)) with
  | Lt => true
  | Gt => false
  | Eq => String.leb y.1 x.1
  end.

Definition appointment_order : relation (string * AppointmentDoc.t) :=
  fun x y => appointment_leb x y = true.

#[global] Instance appointment_order_dec : RelDecision appointment_order.
Proof. intros x y. unfold appointment_order. apply _. Defined.

(** [{ id: doc.id, ...doc.data(), createdAt: ..., updatedAt: ... }] *)
Definition toAppointment (kd : string * AppointmentDoc.t) : Appointment.t :=
  Appointment.mk kd.1 kd.2.

Definition getPatientAppointments (patientId : string)
    : Fs (list Appointment.t) :=
  try_catch
    (await querySnapshot <-
       getDocs APPOINTMENTS
         (fun d => bool_decide
                     (AppointmentData.patientId (AppointmentDoc.data d)
                      = patientId))
         appointment_order;
     ret (map toAppointment querySnapshot))
    (fun _ => ret []).

Definition getDoctorAppointments (doctorId : string)
    : Fs (list Appointment.t) :=
  try_catch
    (await querySnapshot <-
       getDocs APPOINTMENTS
         (fun d => bool_decide
                     (AppointmentData.doctorId (AppointmentDoc.data d)
                      = doctorId))
         appointment_order;
     ret (map toAppointment querySnapshot))
    (fun _ => ret []).

(** The two backends hold the same documents and show the same time. *)
Definition same_documents (st st' : Firestore) : Prop :=
  users st' = users st ∧ appointments st' = appointments st ∧
  timeSlots st' = timeSlots st ∧ now st' = now st.

(** [l] lists exactly the appointments of the collection [m] whose
    document satisfies [P], each once, the later dates first. *)
Definition exactly_latest_first (P : AppointmentDoc.t -> Prop)
    (m : gmap string AppointmentDoc.t) (l : list Appointment.t) : Prop :=
  (∀ a, a ∈ l ↔ m !! Appointment.id a = Some (Appointment.doc a) ∧
                P (Appointment.doc a)) ∧
  NoDup (map Appointment.id l) ∧
  StronglySorted
    (fun a b => string_le (AppointmentData.date (Appointment.data b))
                          (AppointmentData.date (Appointment.data a))) l.

(* ===================================================================== *)
(** ** [pages/BookAppointment.tsx]: loading and selecting *)
(* ===================================================================== *)

(** The values [loadAvailableSlots] builds, [{...doctor, availableSlots}]:
    [doctor] (here [doctor_]: [doctor] names the role) is the user
    document read under the slot's [doctorId],
    whatever its role (the cast [as Doctor] checks nothing), and the
    slots pushed are the entries of [getAvailableTimeSlots]. *)
Module DoctorEntry.
Record t := mk { user : User.t; availableSlots : list SlotWithDoctorInfo.t }.
Definition push (slot : SlotWithDoctorInfo.t) (e : t) : t :=
  mk (user e) (availableSlots e ++ [slot]).
End DoctorEntry.

(** [Map<string, DoctorWithSlots>]. A JS [Map] iterates in the order in
    which its keys were first set: an association list. [map_update] is
    a change of the object stored under a key, through the reference
    [get] returns. *)
Definition DoctorMap : Type := list (string * DoctorEntry.t).

Fixpoint map_get (k : string) (m : DoctorMap) : option DoctorEntry.t :=
  match m with
  | [] => None
  | (k', e) :: m' => if bool_decide (k' = k) then Some e else map_get k m'
  end.

Definition map_has (k : string) (m : DoctorMap) : bool :=
  match map_get k m with Some _ => true | None => false end.

Fixpoint map_update (f : DoctorEntry.t -> DoctorEntry.t) (k : string)
    (m : DoctorMap) : DoctorMap :=
  match m with
  | [] => []
  | (k', e) :: m' =>
      if bool_decide (k' = k) then (k', f e) :: m'
      else (k', e) :: map_update f k m'
  end.

Definition map_set (k : string) (e : DoctorEntry.t) (m : DoctorMap)
    : DoctorMap :=
  if map_has k m then map_update (fun _ => e) k m else m ++ [(k, e)].

Definition map_values (m : DoctorMap) : list DoctorEntry.t := map snd m.

(** [for (const a of l) { ... }] over a loop state [s] *)
Fixpoint for_of {A S} (body : S -> A -> Fs S) (l : list A) (s : S) : Fs S :=
  match l with
  | [] => ret s
  | a :: l' => await s' <- body s a; for_of body l' s'
  end.

(** The body of the loop of [loadAvailableSlots] *)
Definition group_slot (doctorMap : DoctorMap) (slot : SlotWithDoctorInfo.t)
    : Fs DoctorMap :=
  let doctorId := TimeSlot.doctorId (SlotWithDoctorInfo.slot slot) in
  await doctorMap <-
    (if map_has doctorId doctorMap then ret doctorMap
     else
       await doctor_ <- getUserDocument doctorId;
       ret (match doctor_ with
            | Some doctor_ =>
                map_set doctorId (DoctorEntry.mk doctor_ []) doctorMap
            | None => doctorMap
            end));
  ret (match map_get doctorId doctorMap with
       | Some _ => map_update (DoctorEntry.push slot) doctorId doctorMap
       | None => doctorMap
       end).

(** The state of the page: its [useState] cells. *)
Module BookAppointmentPage.
Record t := mk {
  doctorsWithSlots : list DoctorEntry.t;
  selectedDoctor : option DoctorEntry.t;
  selectedTimeSlot : option SlotWithDoctorInfo.t;
  loading : bool;
  booking : bool;
  notification : NotificationData.t }.
Definition initial : t :=
  mk [] None None true false (NotificationData.mk false "" success).
Definition setDoctorsWithSlots (l : list DoctorEntry.t) (p : t) : t :=
  mk l (selectedDoctor p) (selectedTimeSlot p) (loading p) (booking p)
     (notification p).
Definition setSelectedDoctor (d : option DoctorEntry.t) (p : t) : t :=
  mk (doctorsWithSlots p) d (selectedTimeSlot p) (loading p) (booking p)
     (notification p).
Definition setSelectedTimeSlot (s : option SlotWithDoctorInfo.t) (p : t) : t :=
  mk (doctorsWithSlots p) (selectedDoctor p) s (loading p) (booking p)
     (notification p).
Definition setLoading (b : bool) (p : t) : t :=
  mk (doctorsWithSlots p) (selectedDoctor p) (selectedTimeSlot p) b (booking p)
     (notification p).
Definition showNotification (message : string) (type : NotificationType)
    (p : t) : t :=
  mk (doctorsWithSlots p) (selectedDoctor p) (selectedTimeSlot p) (loading p)
     (booking p) (notify message type).
End BookAppointmentPage.

Definition loadAvailableSlots (page : BookAppointmentPage.t)
    : Fs BookAppointmentPage.t :=
  await page <-
    try_catch
      (await slotsWithDoctorInfo <- getAvailableTimeSlots;
       await doctorMap <- for_of group_slot slotsWithDoctorInfo [];
       ret (BookAppointmentPage.setDoctorsWithSlots (map_values doctorMap) page))
      (fun _ =>
         ret (BookAppointmentPage.showNotification
                "Failed to load available appointments" error page));
  ret (BookAppointmentPage.setLoading false page).

Definition selectDoctor (doctor_ : DoctorEntry.t) (page : BookAppointmentPage.t)
    : BookAppointmentPage.t :=
  BookAppointmentPage.setSelectedTimeSlot None
    (BookAppointmentPage.setSelectedDoctor (Some doctor_) page).

Definition selectTimeSlot (slot : SlotWithDoctorInfo.t)
    (page : BookAppointmentPage.t) : BookAppointmentPage.t :=
  BookAppointmentPage.setSelectedTimeSlot (Some slot) page.

(** What the patient can press once the page has loaded: the card of the
    [i]-th doctor listed, and, when a doctor is selected, the button of
    the [j]-th of that doctor's slots. While [loading] the page renders
    the spinner only. *)
Inductive Click := DoctorCard (i : nat) | SlotButton (j : nat).

Definition click (page : BookAppointmentPage.t) (c : Click)
    : BookAppointmentPage.t :=
  if BookAppointmentPage.loading page then page
  else
    match c with
    | DoctorCard i =>
        match BookAppointmentPage.doctorsWithSlots page !! i with
        | Some doctor_ => selectDoctor doctor_ page
        | None => page
        end
    | SlotButton j =>
        match BookAppointmentPage.selectedDoctor page with
        | Some doctor_ =>
            match DoctorEntry.availableSlots doctor_ !! j with
            | Some slot => selectTimeSlot slot page
            | None => page
            end
        | None => page
        end
    end.

Definition clicks (cs : list Click) (page : BookAppointmentPage.t)
    : BookAppointmentPage.t :=
  foldl click page cs.

(** The page's selection as [bookAppointment] reads it, for a selected
    entry that is a doctor's document. *)
Definition asDoctorWithSlots (e : DoctorEntry.t) : option DoctorWithSlots.t :=
  match DoctorEntry.user e with
  | User.Doctor d =>
      Some (DoctorWithSlots.mk d
              (map SlotWithDoctorInfo.slot (DoctorEntry.availableSlots e)))
  | User.Patient _ => None
  end.

(** The open slots of the store as [getAvailableTimeSlots] orders them,
    and those of them whose [doctorId] is [k]. *)
Definition open_slots (st : Firestore) : list TimeSlot.t :=
  map toTimeSlot (open_documents (timeSlots st)).

Definition of_doctor (k : string) (l : list SlotWithDoctorInfo.t)
    : list SlotWithDoctorInfo.t :=
  filter (fun s => TimeSlot.doctorId (SlotWithDoctorInfo.slot s) = k) l.

(** Every user document is stored under its own [uid], as
    [createUserDocument] writes it. *)
Definition users_keyed (st : Firestore) : Prop :=
  ∀ k u, users st !! k = Some u -> User.uid u = k.

(** [loadAvailableSlots] run on the page as mounted. *)
Definition loaded (st : Firestore) : BookAppointmentPage.t :=
  match (loadAvailableSlots BookAppointmentPage.initial st).1 with
  | Ok page => page
  | Thrown _ => BookAppointmentPage.initial
  end.

(** One turn of the loop of [loadAvailableSlots] on the map alone, given
    what [getUserDocument] answers when it is asked. *)
Definition group_with (answer : option User.t) (doctorMap : DoctorMap)
    (slot : SlotWithDoctorInfo.t) : DoctorMap :=
  let doctorId := TimeSlot.doctorId (SlotWithDoctorInfo.slot slot) in
  let doctorMap :=
    if map_has doctorId doctorMap then doctorMap
    else match answer with
         | Some doctor_ => map_set doctorId (DoctorEntry.mk doctor_ []) doctorMap
         | None => doctorMap
         end in
  match map_get doctorId doctorMap with
  | Some _ => map_update (DoctorEntry.push slot) doctorId doctorMap
  | None => doctorMap
  end.

(** [m] groups slots of [done] by doctor: one entry per key, each with
    the user document of its key and at least one slot, its slots being
    slots of that doctor in the order of [done]. *)
Definition grouped (us : gmap string User.t) (done : list SlotWithDoctorInfo.t)
    (m : DoctorMap) : Prop :=
  NoDup (map fst m) ∧
  ∀ k e, (k, e) ∈ m ->
         us !! k = Some (DoctorEntry.user e) ∧
         DoctorEntry.availableSlots e ≠ [] ∧
         sublist (DoctorEntry.availableSlots e) (of_doctor k done).

(** [m] groups all the slots of [done] whose doctor has a user
    document. *)
Definition grouped_all (us : gmap string User.t)
    (done : list SlotWithDoctorInfo.t) (m : DoctorMap) : Prop :=
  NoDup (map fst m) ∧
  (∀ k e, (k, e) ∈ m ->
          us !! k = Some (DoctorEntry.user e) ∧
          DoctorEntry.availableSlots e ≠ [] ∧
          DoctorEntry.availableSlots e = of_doctor k done) ∧
  (∀ s, s ∈ done ->
        is_Some (us !! TimeSlot.doctorId (SlotWithDoctorInfo.slot s)) ->
        TimeSlot.doctorId (SlotWithDoctorInfo.slot s) ∈ map fst m).

(** The selection of a page is among what the page lists. *)
Definition selection_listed (page : BookAppointmentPage.t) : Prop :=
  (∀ e, BookAppointmentPage.selectedDoctor page = Some e ->
        e ∈ BookAppointmentPage.doctorsWithSlots page) ∧
  (∀ s, BookAppointmentPage.selectedTimeSlot page = Some s ->
        ∃ e, BookAppointmentPage.selectedDoctor page = Some e ∧
             s ∈ DoctorEntry.availableSlots e).

(* ===================================================================== *)
(** ** [App.tsx] and [components/ProtectedRoute.tsx]: the routes *)
(* ===================================================================== *)

(** The page components the router mounts. *)
Inductive Component :=
| Landing | Login | Register
| PatientDashboard | BookAppointment
| DoctorDashboard | ManageAvailability
| NotFound.

(** What a route renders: the spinner, a page, or nothing while it
    calls [navigate]. *)
Inductive View :=
| Spinner
| Shows (c : Component)
| Navigates (path : string).

(** What [useAuthContext] gives [ProtectedRoute]. *)
Module AuthContext.
Record t := mk { user : option User.t; loading : bool }.
End AuthContext.

Definition ProtectedRoute (ctx : AuthContext.t) (requiredRole : option Role)
    (children : Component) : View :=
  if AuthContext.loading ctx then Spinner
  else
    match AuthContext.user ctx with
    | None => Navigates "/login"
    | Some user =>
        match requiredRole with
        | Some requiredRole =>
            if bool_decide (User.role user ≠ requiredRole)
            then Navigates (if bool_decide (User.role user = patient)
                            then "/patient/dashboard"
                            else "/doctor/dashboard")
            else Shows children
        | None => Shows children
        end
    end.

(** How wouter matches a location against a path without parameters:
    the path, optionally followed by one slash, compared without regard
    to the case of the letters A to Z. The path is compiled to the
    regular expression [^path\/?$] with the flag [i], and the root path
    to [^\/?$]. *)
Definition lower (c : ascii) : ascii :=
  let n := N_of_ascii c in
  if (65 <=? n)%N && (n <=? 90)%N then ascii_of_N (n + 32) else c.

Fixpoint lowercase (s : string) : string :=
  match s with
  | EmptyString => EmptyString
  | String c s' => String (lower c) (lowercase s')
  end.

Definition route_matches (path location : string) : bool :=
  let segments := if bool_decide (path = "/") then "" else lowercase path in
  bool_decide (lowercase location = segments)
  || bool_decide (lowercase location = segments +:+ "/").

(** [<Switch>] renders the first route whose path matches the location,
    and the last route has no path. *)
Definition Router (ctx : AuthContext.t) (location : string) : View :=
  if route_matches "/" location then Shows Landing
  else if route_matches "/login" location then Shows Login
  else if route_matches "/register" location then Shows Register
  else if route_matches "/patient/dashboard" location
  then ProtectedRoute ctx (Some patient) PatientDashboard
  else if route_matches "/book-appointment" location
  then ProtectedRoute ctx (Some patient) BookAppointment
  else if route_matches "/doctor/dashboard" location
  then ProtectedRoute ctx (Some doctor) DoctorDashboard
  else if route_matches "/manage-availability" location
  then ProtectedRoute ctx (Some doctor) ManageAvailability
  else Shows NotFound.

(** The role a page is written for. *)
Definition page_role (c : Component) : option Role :=
  match c with
  | PatientDashboard | BookAppointment => Some patient
  | DoctorDashboard | ManageAvailability => Some doctor
  | Landing | Login | Register | NotFound => None
  end.

(** The page on screen once the router has followed [fuel] calls of
    [navigate] from [location], if it has come to a page by then. *)
Fixpoint settle (fuel : nat) (ctx : AuthContext.t) (location : string)
    : option (string * Component) :=
  match Router ctx location with
  | Shows c => Some (location, c)
  | Spinner => None
  | Navigates path =>
      match fuel with
      | 0 => None
      | S fuel => settle fuel ctx path
      end
  end.

(* ===================================================================== *)
(** ** [hooks/useAuth.ts] and [pages/Login.tsx]: signing in *)
(* ===================================================================== *)

(** The [useState] cells of the hook. *)
Module AuthState.
Record t := mk { user : option User.t; loading : bool; error : option string }.
Definition initial : t := mk None true None.
Definition setUser (u : option User.t) (s : t) : t := mk u (loading s) (error s).
Definition setLoading (b : bool) (s : t) : t := mk (user s) b (error s).
Definition setError (e : option string) (s : t) : t := mk (user s) (loading s) e.
End AuthState.

(** What Firebase Authentication answers to
    [signInWithEmailAndPassword] and [createUserWithEmailAndPassword]:
    the uid of the account, or an error with its code and message. The
    accounts themselves are outside the model. *)
Inductive AuthResult :=
| Credential (uid : string)
| AuthError (code : string) (message : string).

(** What a [catch] of the hook reads of the error it is given: [code],
    absent on a plain [Error], and [message]. *)
Module JsError.
Record t := mk { code : option string; message : string }.
End JsError.

(** The [code] of the errors of the Firestore tier. *)
Definition error_code (e : FirestoreError) : string :=
  match e with
  | cancelled => "cancelled"
  | unknown => "unknown"
  | invalid_argument => "invalid-argument"
  | deadline_exceeded => "deadline-exceeded"
  | not_found => "not-found"
  | already_exists => "already-exists"
  | permission_denied => "permission-denied"
  | resource_exhausted => "resource-exhausted"
  | failed_precondition => "failed-precondition"
  | aborted => "aborted"
  | out_of_range => "out-of-range"
  | unimplemented => "unimplemented"
  | internal => "internal"
  | unavailable => "unavailable"
  | data_loss => "data-loss"
  | unauthenticated => "unauthenticated"
  end.

(** [error.code === 'permission-denied' || error.code === 'unavailable'] *)
Definition storage_fallback (e : FirestoreError) : bool :=
  bool_decide (error_code e = "permission-denied")
  || bool_decide (error_code e = "unavailable").

(** The state of the hook, of the backend and of localStorage once a
    call of the hook has settled, with what it returned or threw. *)
Record Called (A : Type) := mkCalled {
  outcome : A; hook : AuthState.t; db : Firestore; storage : LocalStorage }.
Arguments mkCalled {A} outcome hook db storage.
Arguments outcome {A} c.
Arguments hook {A} c.
Arguments db {A} c.
Arguments storage {A} c.

(** [{ uid: firebaseUser.uid, email, ...userData }] for the [userData]
    of the registration form, which has the fields of a patient or of a
    doctor without [uid] and [email]. *)
Module ProfileData.
Inductive t :=
| Patient (name : string) (age : nat) (gender : Gender)
| Doctor (name : string) (specialty : string).
Definition withIdentity (uid email : string) (userData : t) : User.t :=
  match userData with
  | Patient name age gender =>
      User.Patient (Patient.mk uid email name age gender)
  | Doctor name specialty =>
      User.Doctor (Doctor.mk uid email name specialty)
  end.
End ProfileData.

(** [if (!userDoc) throw new Error('User data not found')] *)
Definition found (userDoc : option User.t) : JsError.t + User.t :=
  match userDoc with
  | Some userDoc => inr userDoc
  | None => inl (JsError.mk None "User data not found")
  end.

Definition login_message (e : JsError.t) : string :=
  if bool_decide (JsError.code e = Some "auth/user-not-found")
     || bool_decide (JsError.code e = Some "auth/wrong-password")
  then "Invalid email or password"
  else if bool_decide (JsError.code e = Some "auth/invalid-email")
  then "Invalid email address"
  else if bool_decide (JsError.code e = Some "auth/too-many-requests")
  then "Too many failed attempts. Please try again later."
  else if bool_decide (JsError.code e = Some "permission-denied")
  then "Database access denied. Please enable Firestore and set security rules."
  else or_default (Some (JsError.message e)) "Login failed. Please try again.".

Definition register_message (e : JsError.t) : string :=
  if bool_decide (JsError.code e = Some "auth/email-already-in-use")
  then "Email already in use"
  else if bool_decide (JsError.code e = Some "auth/weak-password")
  then "Password should be at least 6 characters"
  else if bool_decide (JsError.code e = Some "auth/invalid-email")
  then "Invalid email address"
  else if bool_decide (JsError.code e = Some "permission-denied")
  then "Database access denied. Please enable Firestore and set security rules."
  else or_default (Some (JsError.message e)) "Registration failed. Please try again.".

Section UseAuth.

(** The message of an error of the Firestore tier. *)
Variable describe : FirestoreError -> string.

Definition js_error (e : FirestoreError) : JsError.t :=
  JsError.mk (Some (error_code e)) (describe e).

(** The callback given to [onAuthStateChanged], called with the uid of
    the signed-in account or with [null]. What it returns here is
    whether it has called [signOut]. *)
Definition authStateChanged (firebaseUser : option string)
    (s : AuthState.t) (st : Firestore) (ls : LocalStorage) : Called bool :=
  let s := AuthState.setError None (AuthState.setLoading true s) in
  match firebaseUser with
  | Some uid =>
      match getUserDocument uid st with
      | (Ok userDoc, st') =>
          let userDoc :=
            match userDoc with
            | Some userDoc => Some userDoc
            | None => (tempGetUser uid ls).1
            end in
          match userDoc with
          | Some userDoc =>
              mkCalled false
                (AuthState.setLoading false (AuthState.setUser (Some userDoc) s))
                st' (tempSetCurrentUser (Some userDoc) ls)
          | None =>
              mkCalled false
                (AuthState.setLoading false (AuthState.setUser None s)) st' ls
          end
      | (Thrown e, st') =>
          if storage_fallback e then
            match (tempGetUser uid ls).1 with
            | Some userDoc =>
                mkCalled false
                  (AuthState.setLoading false
                     (AuthState.setUser (Some userDoc) s))
                  st' (tempSetCurrentUser (Some userDoc) ls)
            | None =>
                mkCalled true
                  (AuthState.setLoading false (AuthState.setUser None s)) st' ls
            end
          else
            mkCalled false
              (AuthState.setLoading false
                 (AuthState.setUser None
                    (AuthState.setError (Some "Failed to load user data") s)))
              st' ls
      end
  | None =>
      mkCalled false (AuthState.setLoading false (AuthState.setUser None s))
        st (tempSetCurrentUser None ls)
  end.

(** How [register] and [login] end: [setUser], [tempSetCurrentUser] and
    the return, or the [catch] with its message; [finally] ends the
    loading state. *)
Definition settled (errorMessage : JsError.t -> string)
    (attempt : JsError.t + User.t) (s : AuthState.t) (st : Firestore)
    (ls : LocalStorage) : Called (Outcome User.t) :=
  match attempt with
  | inr newUser =>
      mkCalled (Returned newUser)
        (AuthState.setLoading false (AuthState.setUser (Some newUser) s))
        st (tempSetCurrentUser (Some newUser) ls)
  | inl e =>
      mkCalled (Raised (errorMessage e))
        (AuthState.setLoading false
           (AuthState.setError (Some (errorMessage e)) s))
        st ls
  end.

(** The [try] block of [register]: the user it comes to, or the error
    its [catch] is given. *)
Definition register_attempt (createUser : AuthResult) (email : string)
    (userData : ProfileData.t) (st : Firestore) (ls : LocalStorage)
    : (JsError.t + User.t) * Firestore * LocalStorage :=
  match createUser with
  | Credential uid =>
      let newUserData := ProfileData.withIdentity uid email userData in
      match createUserDocument newUserData st with
      | (Ok newUser, st') => (inr newUser, st', ls)
      | (Thrown firestoreError, st') =>
          if storage_fallback firestoreError then
            match tempCreateUser newUserData ls with
            | (Returned newUser, ls') => (inr newUser, st', ls')
            | (Raised message, ls') => (inl (JsError.mk None message), st', ls')
            end
          else (inl (js_error firestoreError), st', ls)
      end
  | AuthError code message => (inl (JsError.mk (Some code) message), st, ls)
  end.

Definition register (createUser : AuthResult) (email : string)
    (userData : ProfileData.t)
    (s : AuthState.t) (st : Firestore) (ls : LocalStorage)
    : Called (Outcome User.t) :=
  let s := AuthState.setLoading true (AuthState.setError None s) in
  let '(attempt, st', ls') := register_attempt createUser email userData st ls in
  settled register_message attempt s st' ls'.


Definition login (signIn : AuthResult)
    (s : AuthState.t) (st : Firestore) (ls : LocalStorage)
    : Called (Outcome User.t) :=
  let s := AuthState.setLoading true (AuthState.setError None s) in
  match signIn with
  | Credential uid =>
      match getUserDocument uid st with
      | (Ok userDoc, st') => settled login_message (found userDoc) s st' ls
      | (Thrown e, st') =>
          if storage_fallback e
          then settled login_message (found (tempGetUser uid ls).1) s st' ls
          else settled login_message (inl (js_error e)) s st' ls
      end
  | AuthError code message =>
      settled login_message (inl (JsError.mk (Some code) message)) s st ls
  end.


End UseAuth.


(** The stored users of localStorage that have the uid or the email of
    [userData]. *)
Definition known_to_storage (userData : User.t) (ls : LocalStorage) : Prop :=
  ∃ user, user ∈ doccare_users ls ∧
          (User.uid user = User.uid userData ∨
           User.email user = User.email userData).

(* ===================================================================== *)
(** ** [lib/tempStorage.ts]: the sample data *)
(* ===================================================================== *)

Definition sampleDoctors : list Doctor.t :=
  [ Doctor.mk "doctor_1" "sarah.johnson@doccare.com" "Dr. Sarah Johnson"
      "cardiology";
    Doctor.mk "doctor_2" "michael.chen@doccare.com" "Dr. Michael Chen"
      "dermatology";
    Doctor.mk "doctor_3" "emily.davis@doccare.com" "Dr. Emily Davis"
      "pediatrics" ].

Definition samplePatients : list Patient.t :=
  [ Patient.mk "patient_1" "john.smith@example.com" "John Smith" 35 male;
    Patient.mk "patient_2" "maria.garcia@example.com" "Maria Garcia" 28 female ].

Definition times : list string :=
  [ "09:00"; "09:30"; "10:00"; "10:30"; "11:00";
    "14:00"; "14:30"; "15:00"; "15:30"; "16:00" ].

(** The object [tempInitializeSampleData] returns. *)
Module SampleCounts.
Record t := mk { doctors : nat; patients : nat; timeSlots : nat }.
End SampleCounts.

(** The slot pushed for a doctor, a day and a time. *)
Definition sampleSlot (uid dateStr time : string) : TimeSlot.t :=
  TimeSlot.mk ("slot_" +:+ uid +:+ "_" +:+ dateStr +:+ "_" +:+ time)
              (TimeSlotData.mk uid dateStr time false).

(** The slots of one day: [times.slice(0, 4 + Math.floor(Math.random() * 2))],
    [extra] telling whether the random number gives 1. *)
Definition sampleDay (dateStr : string) (extra : bool) (uid : string)
    : list TimeSlot.t :=
  let dailySlots := take (4 + (if extra then 1 else 0)) times in
  map (sampleSlot uid dateStr) dailySlots.

(** [tempInitializeSampleData]. [dateStr d i] is the date the clock gives
    for day [i] in the turn of the [d]-th doctor (today plus [i] days,
    as [toISOString] prints it), and [random d i] the random choice of
    that turn. *)
Definition tempInitializeSampleData (dateStr : nat -> nat -> string)
    (random : nat -> nat -> bool) : Temp SampleCounts.t := fun ls =>
  let users := map User.Doctor sampleDoctors ++ map User.Patient samplePatients in
  let ls := save_USERS users ls in
  let timeSlots :=
    concat
      (imap (fun d doctor_ =>
               concat
                 (map (fun i => sampleDay (dateStr d i) (random d i)
                                          (Doctor.uid doctor_))
                      (seq 1 7)))
            sampleDoctors) in
  let ls := save_TIME_SLOTS timeSlots ls in
  (SampleCounts.mk (length sampleDoctors) (length samplePatients)
                   (length timeSlots), ls).

(* ===================================================================== *)
(** ** Scenarios of the localStorage tier *)
(* ===================================================================== *)

Module TempScenario.

(** localStorage holding the profiles of D1 and P1; a newcomer who
    gives P1's email. *)
Definition registered_storage : LocalStorage :=
  mkLocalStorage [User.Doctor Scenario.D1; User.Patient Scenario.P1] [] [] None.
Definition P1_again : Patient.t :=
  Patient.mk "P9" "john.smith@example.com" "Johnny Smith" 36 male.
End TempScenario.

(* ===================================================================== *)
(** * Properties *)
(* ===================================================================== *)

(** ** The order on strings and on slot documents *)

Section StringOrder.

Lemma ascii_compare_refl (a : ascii) : Ascii.compare a a = Eq.
Proof. unfold Ascii.compare. apply N.compare_refl. Qed.

Lemma ascii_compare_eq (a b : ascii) : Ascii.compare a b = Eq -> a = b.
Proof.
  unfold Ascii.compare. intros H. apply N.compare_eq in H.
  rewrite <- (ascii_N_embedding a), <- (ascii_N_embedding b). by rewrite H.
Qed.

Lemma ascii_compare_lt_trans (a b c : ascii) :
  Ascii.compare a b = Lt -> Ascii.compare b c = Lt -> Ascii.compare a c = Lt.
Proof.
  unfold Ascii.compare. rewrite !N.compare_lt_iff. apply N.lt_trans.
Qed.

Lemma string_compare_refl (s : string) : String.compare s s = Eq.
Proof. induction s as [|a s IH]; simpl; [done|]. by rewrite ascii_compare_refl. Qed.

Lemma string_lt_trans (s1 s2 s3 : string) :
  string_lt s1 s2 -> string_lt s2 s3 -> string_lt s1 s3.
Proof.
  unfold string_lt. revert s2 s3.
  induction s1 as [|a s1 IH]; intros [|b s2] [|c s3]; simpl; try done.
  destruct (Ascii.compare a b) eqn:Hab; try done;
    destruct (Ascii.compare b c) eqn:Hbc; try done; intros H1 H2.
  - apply ascii_compare_eq in Hab, Hbc. subst.
    rewrite ascii_compare_refl. by eapply IH.
  - apply ascii_compare_eq in Hab. subst. by rewrite Hbc.
  - apply ascii_compare_eq in Hbc. subst. by rewrite Hab.
  - by rewrite (ascii_compare_lt_trans a b c).
Qed.

Lemma string_le_lt_eq (a b : string) : string_le a b <-> string_lt a b \/ a = b.
Proof.
  unfold string_le, string_lt, String.leb. split.
  - destruct (String.compare a b) eqn:H; try done; [|by left].
    right. by apply String.compare_eq_iff.
  - intros [-> | ->]; [done|]. by rewrite string_compare_refl.
Qed.

#[global] Instance string_le_trans : Transitive string_le.
Proof.
  intros a b c. rewrite !string_le_lt_eq.
  intros [H1 | ->] [H2 | ->]; eauto using string_lt_trans.
Qed.

#[global] Instance string_le_total : Total string_le.
Proof. intros a b. apply String.leb_total. Qed.

End StringOrder.

Section SlotOrder.
Implicit Types x y z : string * TimeSlotDoc.t.

#[global] Instance slot_order_total : Total slot_order.
Proof.
  intros x y. unfold slot_order, slot_leb. simpl.
  rewrite (String.compare_antisym (TimeSlotData.date (TimeSlotDoc.data y.2))).
  rewrite (String.compare_antisym (TimeSlotData.time (TimeSlotDoc.data y.2))).
  destruct (String.compare (TimeSlotData.date (TimeSlotDoc.data x.2)) _);
    simpl; auto.
  destruct (String.compare (TimeSlotData.time (TimeSlotDoc.data x.2)) _);
    simpl; auto.
  apply String.leb_total.
Qed.

(** The query order refines the order by [(date, time)]. *)
Lemma slot_order_date_time x y :
  slot_order x y -> date_time_le (TimeSlotDoc.data x.2) (TimeSlotDoc.data y.2).
Proof.
  unfold slot_order, slot_leb, date_time_le, string_lt. simpl.
  destruct (String.compare (TimeSlotData.date _) _) eqn:Hd; try done; [|by left].
  apply String.compare_eq_iff in Hd. intros H. right. split; [done|].
  apply string_le_lt_eq. unfold string_lt.
  destruct (String.compare (TimeSlotData.time _) _) eqn:Ht; try done; [|by left].
  right. by apply String.compare_eq_iff.
Qed.

#[global] Instance date_time_le_trans : Transitive date_time_le.
Proof.
  intros a b c. unfold date_time_le.
  intros [H1 | [E1 H1]] [H2 | [E2 H2]].
  - left. by eapply string_lt_trans.
  - left. by rewrite <- E2.
  - left. by rewrite E1.
  - right. split; [congruence|]. by etrans.
Qed.
End SlotOrder.

(** ** Equations of the Firestore functions *)

Lemma request_eq st :
  request st = (if rejected st then Thrown (rejection st) else Ok tt, after_request st).
Proof. fs_unfold. by fs_cases st. Qed.

Lemma createUserDocument_eq userData st :
  createUserDocument userData st =
  if rejected st then (Thrown (rejection st), after_request st)
  else (Ok userData,
        set_users (<[User.uid userData := userData]> (users st)) (after_request st)).
Proof. fs_unfold. by fs_cases st. Qed.

Lemma getUserDocument_eq uid st :
  getUserDocument uid st =
  (Ok (if rejected st then None else users st !! uid), after_request st).
Proof. fs_unfold. by fs_cases st. Qed.

Lemma createTimeSlot_eq newId timeSlotData st :
  createTimeSlot newId timeSlotData st =
  if rejected st then (Thrown (rejection st), after_request st)
  else (Ok (TimeSlot.mk newId timeSlotData),
        set_timeSlots (<[newId := TimeSlotDoc.mk timeSlotData (now st) None]>
                         (timeSlots st)) (after_request st)).
Proof. fs_unfold. by fs_cases st. Qed.

Lemma deleteTimeSlot_eq slotId st :
  deleteTimeSlot slotId st =
  if rejected st then (Thrown (rejection st), after_request st)
  else (Ok tt, set_timeSlots (delete slotId (timeSlots st)) (after_request st)).
Proof. fs_unfold. by fs_cases st. Qed.

Lemma updateTimeSlotBookingStatus_eq slotId isBooked st :
  updateTimeSlotBookingStatus slotId isBooked st =
  if rejected st then (Thrown (rejection st), after_request st)
  else match timeSlots st !! slotId with
       | Some d =>
           (Ok tt,
            set_timeSlots
              (<[slotId := TimeSlotDoc.mk
                             (TimeSlotData.with_isBooked isBooked (TimeSlotDoc.data d))
                             (TimeSlotDoc.createdAt d) (Some (now st))]>
                 (timeSlots st)) (after_request st))
       | None => (Thrown not_found, after_request st)
       end.
Proof.
  fs_unfold. fs_cases st; try done;
    by match goal with |- context [?m !! slotId] => destruct (m !! slotId) end.
Qed.

Lemma createAppointment_eq newId appointmentData st :
  createAppointment newId appointmentData st =
  if AppointmentData.defined appointmentData then
    if rejected st then (Thrown (rejection st), after_request st)
    else (Ok (Appointment.mk newId
                (AppointmentDoc.mk appointmentData (now st) (now st))),
          set_appointments
            (<[newId := AppointmentDoc.mk appointmentData (now st) (now st)]>
               (appointments st)) (after_request st))
  else (Thrown invalid_argument, st).
Proof.
  fs_unfold. destruct (AppointmentData.defined appointmentData); [|done].
  by fs_cases st.
Qed.


Lemma updateAppointmentStatus_eq appointmentId status st :
  updateAppointmentStatus appointmentId status st =
  if rejected st then (Thrown (rejection st), after_request st)
  else match appointments st !! appointmentId with
       | Some d =>
           (Ok tt,
            set_appointments
              (<[appointmentId := AppointmentDoc.mk
                    (AppointmentData.with_status status (AppointmentDoc.data d))
                    (AppointmentDoc.createdAt d) (now st)]>
                 (appointments st)) (after_request st))
       | None => (Thrown not_found, after_request st)
       end.
Proof.
  fs_unfold. fs_cases st; try done;
    by match goal with |- context [?m !! appointmentId] =>
         destruct (m !! appointmentId) end.
Qed.

(** The handlers, by the fate of their requests. *)
Lemma bookAppointment_eq selectedDoctor selectedTimeSlot user newId st :
  let doc := AppointmentDoc.mk
               (appointmentData selectedDoctor selectedTimeSlot user)
               (now st) (now st) in
  let st1 := set_appointments (<[newId := doc]> (appointments st))
               (after_request st) in
  bookAppointment (Some selectedDoctor) (Some selectedTimeSlot) (Some user)
    newId st =
  if negb (AppointmentData.defined
             (appointmentData selectedDoctor selectedTimeSlot user))
  then (Ok (Some (notify "Failed to book appointment. Please try again." error)),
        st)
  else if rejected st
  then (Ok (Some (notify "Failed to book appointment. Please try again." error)),
        after_request st)
  else
    match updateTimeSlotBookingStatus (TimeSlot.id selectedTimeSlot) true st1 with
    | (Ok _, st2) =>
        (Ok (Some (notify "Appointment booked successfully!" success)), st2)
    | (Thrown _, st2) =>
        (Ok (Some (notify "Failed to book appointment. Please try again." error)),
         st2)
    end.
Proof.
  intros doc st1. unfold bookAppointment, try_catch, bind at 1.
  rewrite createAppointment_eq.
  destruct (AppointmentData.defined _); [|done]. simpl negb. cbv iota.
  destruct (rejected st); [done|].
  fold doc. fold st1. unfold bind, ret.
  by destruct (updateTimeSlotBookingStatus _ _ st1) as [[[]|e] st2].
Qed.

Lemma handleUpdateAppointmentStatus_eq appointmentId status st :
  handleUpdateAppointmentStatus appointmentId status st =
  match updateAppointmentStatus appointmentId status st with
  | (Ok _, st') =>
      (Ok (Some (notify ("Appointment " +:+ status_name status +:+ " successfully")
                        success)), st')
  | (Thrown _, st') =>
      (Ok (Some (notify "Failed to update appointment" error)), st')
  end.
Proof.
  unfold handleUpdateAppointmentStatus, try_catch, bind, ret.
  by destruct (updateAppointmentStatus _ _ st) as [[[]|e] st'].
Qed.

Lemma handleRemoveSlot_eq slotId st :
  handleRemoveSlot slotId st =
  if rejected st
  then (Ok (Some (notify "Failed to remove slot" error)), after_request st)
  else (Ok (Some (notify "Slot removed successfully" success)),
        set_timeSlots (delete slotId (timeSlots st)) (after_request st)).
Proof.
  unfold handleRemoveSlot, try_catch, bind, ret. rewrite deleteTimeSlot_eq.
  by destruct (rejected st).
Qed.

(** ** The localStorage tier: booking by field tuple *)

Lemma with_isBooked_fields b slot :
  TimeSlot.isBooked (TimeSlot.with_isBooked b slot) = b ∧
  TimeSlot.id (TimeSlot.with_isBooked b slot) = TimeSlot.id slot ∧
  TimeSlot.doctorId (TimeSlot.with_isBooked b slot) = TimeSlot.doctorId slot ∧
  TimeSlot.date (TimeSlot.with_isBooked b slot) = TimeSlot.date slot ∧
  TimeSlot.time (TimeSlot.with_isBooked b slot) = TimeSlot.time slot.
Proof. done. Qed.

Lemma tuple_test_spec slot a :
  bool_decide (TimeSlot.doctorId slot = AppointmentData.doctorId a)
  && bool_decide (TimeSlot.date slot = AppointmentData.date a)
  && bool_decide (TimeSlot.time slot = AppointmentData.time a) = true
  <-> same_tuple slot a.
Proof.
  unfold same_tuple. rewrite !andb_true_iff, !bool_decide_eq_true. tauto.
Qed.

(** C10. [tempCreateAppointment] always appends the appointment under its
    new id, and rewrites the stored slots position by position: a slot
    whose (doctorId, date, time) equals the appointment's has [isBooked]
    true afterwards and its id, doctor, date and time as before, every
    such slot and whatever its id, and a slot with another tuple stays
    as it is. Users and session are not touched. *)
Theorem tempCreateAppointment_books_by_tuple newId appointment ls :
  let r := tempCreateAppointment newId appointment ls in
  r.1 = Appointment.mk newId appointment ∧
  doccare_appointments r.2 =
    doccare_appointments ls ++ [Appointment.mk newId appointment] ∧
  Forall2 (fun slot slot' =>
             (same_tuple slot (AppointmentDoc.data appointment) ∧
              TimeSlot.isBooked slot' = true ∧
              TimeSlot.id slot' = TimeSlot.id slot ∧
              TimeSlot.doctorId slot' = TimeSlot.doctorId slot ∧
              TimeSlot.date slot' = TimeSlot.date slot ∧
              TimeSlot.time slot' = TimeSlot.time slot) ∨
             (¬ same_tuple slot (AppointmentDoc.data appointment) ∧
              slot' = slot))
          (doccare_time_slots ls) (doccare_time_slots r.2) ∧
  doccare_users r.2 = doccare_users ls ∧
  doccare_current_user r.2 = doccare_current_user ls.
Proof.
  unfold tempCreateAppointment. simpl. repeat split; try done.
  induction (doccare_time_slots ls) as [|slot slots IH]; simpl; constructor;
    [|exact IH].
  destruct (_ && _) eqn:Htest.
  - left. split; [|done]. by apply tuple_test_spec.
  - right. split; [|done]. rewrite <- tuple_test_spec. by rewrite Htest.
Qed.

(** Two stored slots share the tuple: both get booked; the slot of the
    other day does not. *)
Example tempCreateAppointment_twins :
  doccare_time_slots
    (tempCreateAppointment "appt_1"
       (AppointmentDoc.mk
          (appointmentData Scenario.selectedDoctor Scenario.slot
             (User.Patient Scenario.P1)) 100 100)
       Scenario.twin_storage).2
  = [TimeSlot.mk "s1" (TimeSlotData.mk "D1" "2024-06-01" "09:00" true);
     TimeSlot.mk "s2" (TimeSlotData.mk "D1" "2024-06-02" "09:00" false);
     TimeSlot.mk "s1bis" (TimeSlotData.mk "D1" "2024-06-01" "09:00" true)].
Proof. reflexivity. Qed.

(** ** [bookAppointment]: what is applied, and when *)




(** The same with every request served, when the doctor has withdrawn the
    slot the patient's page still shows: the slot update finds no
    document, and the appointment stays. *)
Example bookAppointment_withdrawn_slot :
  reports_failure (Scenario.P1_books Scenario.withdrawn).1 ∧
  AppointmentDoc.status <$>
    appointments (Scenario.P1_books Scenario.withdrawn).2 !! "a1" = Some pending ∧
  timeSlots (Scenario.P1_books Scenario.withdrawn).2 !! "s1" = None.
Proof. by vm_compute. Qed.




(** ** The listing of open slots when every request is served *)

Lemma after_request_online st : faults st = [] -> after_request st = st.
Proof. destruct st as [? ? ? ? f]. simpl. by intros ->. Qed.

Lemma rejected_online st : faults st = [] -> rejected st = false.
Proof. unfold rejected. by intros ->. Qed.

Lemma promise_all_online (us : gmap string User.t) slots st :
  faults st = [] ->
  promise_all
    (fun slot =>
       await doctor <- getUserDocument (TimeSlot.doctorId slot);
       ret (SlotWithDoctorInfo.mk slot
              (or_default (User.name <$> doctor) "Unknown Doctor")
              (or_default (doctor ≫= User.specialty) "General")))
    slots st
  = (Ok (map (withDoctorInfo (users st)) slots), st).
Proof.
  intros Hf. induction slots as [|slot slots IH]; simpl; [done|].
  unfold bind at 1. unfold bind at 1. rewrite getUserDocument_eq.
  rewrite (rejected_online st Hf), (after_request_online st Hf).
  unfold ret at 1. unfold bind at 1. by rewrite IH.
Qed.

Lemma getAvailableTimeSlots_online st :
  faults st = [] ->
  getAvailableTimeSlots st =
  (Ok (map (withDoctorInfo (users st))
           (map toTimeSlot (open_documents (timeSlots st)))), st).
Proof.
  intros Hf. unfold getAvailableTimeSlots, try_catch, bind at 1.
  unfold getDocs, bind at 1. rewrite request_eq.
  rewrite (rejected_online st Hf), (after_request_online st Hf).
  simpl coll_get. fold (open_documents (timeSlots st)).
  by rewrite (promise_all_online (users st)).
Qed.

(** ** Status updates *)

Lemma offeredStatusUpdates_spec displayed new :
  new ∈ offeredStatusUpdates displayed ↔
  Appointment.status displayed = pending ∧ (new = confirmed ∨ new = declined).
Proof.
  unfold offeredStatusUpdates. case_bool_decide.
  - rewrite !elem_of_cons, elem_of_nil. tauto.
  - rewrite elem_of_nil. tauto.
Qed.

(** C4, counterexample. Appointment a1 has been declined. A dashboard
    that still displays it as pending offers Confirm; the update does not
    fail, and the appointment is confirmed: the status went pending,
    declined, confirmed. *)
Lemma updateAppointmentStatus_leaves_declined :
  appointments Scenario.booked !! "a1"
    = Some (Appointment.doc Scenario.displayed_appointment) ∧
  AppointmentDoc.status <$>
    appointments Scenario.declined_appointment !! "a1" = Some declined ∧
  confirmed ∈ offeredStatusUpdates Scenario.displayed_appointment ∧
  (updateAppointmentStatus "a1" confirmed Scenario.declined_appointment).1
    = Ok () ∧
  ¬ reports_failure
      (handleUpdateAppointmentStatus "a1" confirmed
         Scenario.declined_appointment).1 ∧
  AppointmentDoc.status <$>
    appointments
      (handleUpdateAppointmentStatus "a1" confirmed
         Scenario.declined_appointment).2 !! "a1" = Some confirmed.
Proof.
  split; [reflexivity|]. split; [reflexivity|].
  split; [apply list_elem_of_here|].
  vm_compute. repeat split; try done.
Qed.

(** Called with [pending], the function takes a declined appointment
    back to pending. *)
Example updateAppointmentStatus_reopens_declined :
  (updateAppointmentStatus "a1" pending Scenario.declined_appointment).1 = Ok () ∧
  AppointmentDoc.status <$>
    appointments
      (updateAppointmentStatus "a1" pending Scenario.declined_appointment).2
      !! "a1" = Some pending.
Proof. by vm_compute. Qed.

(** C4 (as the code has it). [updateAppointmentStatus] checks no
    transition: on an existing appointment, the request being served, it
    succeeds for every current and every new status, and stores the new
    status and the time of the update, every other field staying as it
    was. The only restriction is in what the dashboard offers: Confirm
    and Decline for an appointment it displays as pending, nothing for any
    other; nothing in the code asks for [completed]. *)
Theorem updateAppointmentStatus_any_transition appointmentId status st d
    (Hd : appointments st !! appointmentId = Some d)
    (Hserved : rejected st = false) :
  let r := handleUpdateAppointmentStatus appointmentId status st in
  (updateAppointmentStatus appointmentId status st).1 = Ok () ∧
  reports_success r.1 ∧
  appointments r.2 =
    <[appointmentId :=
        AppointmentDoc.mk
          (AppointmentData.with_status status (AppointmentDoc.data d))
          (AppointmentDoc.createdAt d) (now st)]> (appointments st) ∧
  AppointmentDoc.status <$> appointments r.2 !! appointmentId = Some status ∧
  ∀ displayed new,
    new ∈ offeredStatusUpdates displayed ↔
    Appointment.status displayed = pending ∧ (new = confirmed ∨ new = declined).
Proof.
  intros r. subst r.
  rewrite handleUpdateAppointmentStatus_eq, updateAppointmentStatus_eq.
  rewrite Hserved, Hd. simpl. rewrite lookup_insert_eq.
  split; [done|]. split; [done|]. split; [done|]. split; [done|].
  apply offeredStatusUpdates_spec.
Qed.

Lemma updateAppointmentStatus_any_transition_witness :
  appointments Scenario.declined_appointment !! "a1" =
    Some (AppointmentDoc.mk
            (AppointmentData.with_status declined
               (appointmentData Scenario.selectedDoctor Scenario.slot
                  (User.Patient Scenario.P1))) 100 100) ∧
  rejected Scenario.declined_appointment = false ∧
  AppointmentDoc.status <$>
    appointments
      (handleUpdateAppointmentStatus "a1" confirmed
         Scenario.declined_appointment).2 !! "a1" = Some confirmed.
Proof.
  assert (Hd : appointments Scenario.declined_appointment !! "a1" =
    Some (AppointmentDoc.mk
            (AppointmentData.with_status declined
               (appointmentData Scenario.selectedDoctor Scenario.slot
                  (User.Patient Scenario.P1))) 100 100)) by (by vm_compute).
  split; [exact Hd|]. split; [reflexivity|].
  exact (proj1 (proj2 (proj2 (proj2
    (updateAppointmentStatus_any_transition "a1" confirmed
       Scenario.declined_appointment _ Hd eq_refl))))).
Defined.

(** C5, counterexample. P1's appointment for slot s1 is declined: the
    slot document still has [isBooked] true, and the listings of open
    slots are empty. *)
Lemma declined_slot_stays_booked :
  AppointmentDoc.status <$>
    appointments Scenario.declined_appointment !! "a1" = Some declined ∧
  TimeSlotDoc.isBooked <$>
    timeSlots Scenario.declined_appointment !! "s1" = Some true ∧
  (getAvailableTimeSlots Scenario.declined_appointment).1 = Ok [] ∧
  (getDoctorTimeSlots "D1" Scenario.declined_appointment).1 = Ok [].
Proof. by vm_compute. Qed.

(** The listings read the users, the slots and the fate of their own
    requests, and nothing else. *)
Lemma promise_all_step {A B} (f : A -> Fs B) a l st :
  promise_all f (a :: l) st =
  match f a st with
  | (Ok b, st1) =>
      match promise_all f l st1 with
      | (Ok bs, st2) => (Ok (b :: bs), st2)
      | (Thrown e, st2) => (Thrown e, st2)
      end
  | (Thrown e, st1) => (Thrown e, st1)
  end.
Proof. reflexivity. Qed.

Lemma doctor_info_eq slot st :
  (await doctor <- getUserDocument (TimeSlot.doctorId slot);
   ret (SlotWithDoctorInfo.mk slot
          (or_default (User.name <$> doctor) "Unknown Doctor")
          (or_default (doctor ≫= User.specialty) "General"))) st
  = (Ok (SlotWithDoctorInfo.mk slot
           (or_default
              (User.name <$>
                 (if rejected st then None
                  else users st !! TimeSlot.doctorId slot))
              "Unknown Doctor")
           (or_default
              ((if rejected st then None
                else users st !! TimeSlot.doctorId slot) ≫= User.specialty)
              "General")),
     after_request st).
Proof. unfold bind. by rewrite getUserDocument_eq. Qed.

Lemma promise_all_reads slots : ∀ st st',
  users st = users st' -> faults st = faults st' ->
  (promise_all
     (fun slot =>
        await doctor <- getUserDocument (TimeSlot.doctorId slot);
        ret (SlotWithDoctorInfo.mk slot
               (or_default (User.name <$> doctor) "Unknown Doctor")
               (or_default (doctor ≫= User.specialty) "General")))
     slots st).1
  = (promise_all
       (fun slot =>
          await doctor <- getUserDocument (TimeSlot.doctorId slot);
          ret (SlotWithDoctorInfo.mk slot
                 (or_default (User.name <$> doctor) "Unknown Doctor")
                 (or_default (doctor ≫= User.specialty) "General")))
       slots st').1.
Proof.
  induction slots as [|slot slots IH]; intros st st' Hu Hf; [done|].
  rewrite !promise_all_step. cbv beta. rewrite !doctor_info_eq.
  assert (Hrej : rejected st = rejected st') by (unfold rejected; by rewrite Hf).
  rewrite Hrej, Hu.
  specialize (IH (after_request st) (after_request st')).
  destruct (promise_all _ slots (after_request st)) as [r1 st1].
  destruct (promise_all _ slots (after_request st')) as [r2 st2].
  simpl in IH. rewrite IH; [|done|by rewrite Hf].
  by destruct r2.
Qed.

Lemma getAvailableTimeSlots_eq st :
  getAvailableTimeSlots st =
  if rejected st then (Ok [], after_request st)
  else
    match promise_all
            (fun slot =>
               await doctor <- getUserDocument (TimeSlot.doctorId slot);
               ret (SlotWithDoctorInfo.mk slot
                      (or_default (User.name <$> doctor) "Unknown Doctor")
                      (or_default (doctor ≫= User.specialty) "General")))
            (map toTimeSlot (open_documents (timeSlots st)))
            (after_request st) with
    | (Ok l, st') => (Ok l, st')
    | (Thrown _, st') => (Ok [], st')
    end.
Proof.
  unfold getAvailableTimeSlots, try_catch, bind at 1.
  unfold getDocs, bind at 1. rewrite request_eq.
  by destruct (rejected st).
Qed.

Lemma getAvailableTimeSlots_reads st st' :
  users st = users st' -> timeSlots st = timeSlots st' ->
  faults st = faults st' ->
  (getAvailableTimeSlots st).1 = (getAvailableTimeSlots st').1.
Proof.
  intros Hu Hs Hf. rewrite !getAvailableTimeSlots_eq.
  assert (Hrej : rejected st = rejected st') by (unfold rejected; by rewrite Hf).
  rewrite Hrej, Hs. destruct (rejected st'); [done|].
  pose proof (promise_all_reads
                (map toTimeSlot (open_documents (timeSlots st')))
                (after_request st) (after_request st') Hu) as Hall.
  destruct (promise_all _ _ (after_request st)) as [r1 st1].
  destruct (promise_all _ _ (after_request st')) as [r2 st2].
  simpl in Hall. rewrite Hall by (by simpl; rewrite Hf). by destruct r2.
Qed.

Lemma getDoctorTimeSlots_reads doctorId st st' :
  timeSlots st = timeSlots st' -> faults st = faults st' ->
  (getDoctorTimeSlots doctorId st).1 = (getDoctorTimeSlots doctorId st').1.
Proof.
  intros Hs Hf.
  assert (Heq : ∀ st0,
            (getDoctorTimeSlots doctorId st0).1 =
            Ok (if rejected st0 then []
                else map toTimeSlot
                       (selected_documents
                          (fun d => bool_decide
                                      (TimeSlotData.doctorId (TimeSlotDoc.data d)
                                       = doctorId)
                                    && bool_decide (TimeSlotDoc.isBooked d = false))
                          (timeSlots st0)))).
  { intros st0. unfold getDoctorTimeSlots, try_catch, bind at 1.
    unfold getDocs, bind at 1. rewrite request_eq.
    by destruct (rejected st0). }
  rewrite !Heq.
  assert (Hrej : rejected st = rejected st') by (unfold rejected; by rewrite Hf).
  by rewrite Hrej, Hs.
Qed.

(** C5 (as the code has it). A status update, to [declined] as to
    [confirmed] or [completed], writes nothing to the [timeSlots]
    collection, in every state of the backend: a booked slot stays
    booked, and the listings of open slots are what they were, whatever
    the fate [fs] of the requests of the listing. *)
Theorem updateAppointmentStatus_keeps_slots appointmentId status st :
  let r := handleUpdateAppointmentStatus appointmentId status st in
  timeSlots r.2 = timeSlots st ∧
  timeSlots (updateAppointmentStatus appointmentId status st).2 = timeSlots st ∧
  ∀ fs doctorId,
    (getAvailableTimeSlots (set_faults fs r.2)).1
      = (getAvailableTimeSlots (set_faults fs st)).1 ∧
    (getDoctorTimeSlots doctorId (set_faults fs r.2)).1
      = (getDoctorTimeSlots doctorId (set_faults fs st)).1.
Proof.
  intros r. subst r.
  assert (Hsame : users (handleUpdateAppointmentStatus appointmentId status st).2
                    = users st ∧
                  timeSlots (handleUpdateAppointmentStatus appointmentId status st).2
                    = timeSlots st ∧
                  timeSlots (updateAppointmentStatus appointmentId status st).2
                    = timeSlots st).
  { rewrite handleUpdateAppointmentStatus_eq, updateAppointmentStatus_eq.
    destruct (rejected st); [done|].
    by destruct (appointments st !! appointmentId). }
  destruct Hsame as (Hu & Hs & Hs'). split; [done|]. split; [done|].
  intros fs doctorId. split.
  - by apply getAvailableTimeSlots_reads.
  - by apply getDoctorTimeSlots_reads.
Qed.

Lemma updateAppointmentStatus_keeps_slots_witness :
  TimeSlotDoc.isBooked <$>
    timeSlots (handleUpdateAppointmentStatus "a1" declined Scenario.booked).2
      !! "s1" = Some true ∧
  (getAvailableTimeSlots
     (set_faults []
        (handleUpdateAppointmentStatus "a1" declined Scenario.booked).2)).1
    = (getAvailableTimeSlots (set_faults [] Scenario.booked)).1.
Proof.
  split.
  - rewrite (proj1 (updateAppointmentStatus_keeps_slots "a1" declined
                      Scenario.booked)).
    reflexivity.
  - apply (proj2 (proj2 (updateAppointmentStatus_keeps_slots "a1" declined
                           Scenario.booked)) [] "D1").
Defined.

(** ** Publishing and withdrawing slots *)


(** The guard of [handleAddSlot]: without a user it does nothing. *)
Lemma handleAddSlot_no_user newSlot newId st :
  handleAddSlot newSlot None newId st = (Ok None, st).
Proof. done. Qed.




Lemma filter_keeps_length {A} (P : A -> Prop) `{!∀ x, Decision (P x)}
    (l : list A) :
  ¬ length (filter P l) < length l -> filter P l = l.
Proof.
  induction l as [|x l IH]; [done|].
  rewrite filter_cons. destruct (decide (P x)); simpl; intros Hlen.
  - f_equal. apply IH. lia.
  - pose proof (length_filter P l). lia.
Qed.

(** C7, counterexample. The doctor's page displays slot s1 as open and
    offers to remove it; meanwhile the slot has been booked (appointment
    a1). Removing it does not fail, and the slot document is gone. The
    localStorage tier deletes a booked slot as well. *)
Lemma deleteTimeSlot_deletes_booked_slot :
  removeOffered Scenario.slot = true ∧
  TimeSlotDoc.isBooked <$> timeSlots Scenario.booked !! "s1" = Some true ∧
  (deleteTimeSlot "s1" Scenario.booked).1 = Ok () ∧
  ¬ reports_failure (handleRemoveSlot "s1" Scenario.booked).1 ∧
  timeSlots (handleRemoveSlot "s1" Scenario.booked).2 !! "s1" = None ∧
  tempDeleteTimeSlot "s1"
    (mkLocalStorage [] [] [Scenario.booked_slot] None)
  = (true, mkLocalStorage [] [] [] None).
Proof. vm_compute. repeat split; try done. Qed.

(** C7 (as the code has it). [deleteTimeSlot] takes no requester and
    checks no flag: whenever the request is served it succeeds and the
    collection loses the document of that id, whoever owns the slot and
    whether it is booked or not; [tempDeleteTimeSlot] drops every stored
    slot of that id likewise. Only the page restricts: it renders the
    remove button of a slot it displays as not booked. *)
Theorem deleteTimeSlot_unconditional slotId st ls
    (Hserved : rejected st = false) :
  deleteTimeSlot slotId st =
    (Ok (), set_timeSlots (delete slotId (timeSlots st)) (after_request st)) ∧
  reports_success (handleRemoveSlot slotId st).1 ∧
  timeSlots (handleRemoveSlot slotId st).2 = delete slotId (timeSlots st) ∧
  doccare_time_slots (tempDeleteTimeSlot slotId ls).2 =
    filter (fun slot => TimeSlot.id slot ≠ slotId) (doccare_time_slots ls) ∧
  ∀ displayed, removeOffered displayed = true ↔
               TimeSlot.isBooked displayed = false.
Proof.
  rewrite deleteTimeSlot_eq, handleRemoveSlot_eq, Hserved. simpl.
  split; [done|]. split; [done|]. split; [done|]. split.
  - unfold tempDeleteTimeSlot. case_bool_decide as Hlen; simpl; [done|].
    symmetry. by apply filter_keeps_length.
  - intros displayed. unfold removeOffered. by rewrite negb_true_iff.
Qed.

Lemma deleteTimeSlot_unconditional_witness :
  rejected Scenario.booked = false ∧
  timeSlots (handleRemoveSlot "s1" Scenario.booked).2 !! "s1" = None.
Proof.
  split; [reflexivity|].
  rewrite (proj1 (proj2 (proj2
    (deleteTimeSlot_unconditional "s1" Scenario.booked
       Scenario.twin_storage eq_refl)))).
  apply lookup_delete_eq.
Defined.

(** ** Queries on [timeSlots]: exactly the selected slots, in order *)

Section Query.
Context (wh : TimeSlotDoc.t -> bool) (m : gmap string TimeSlotDoc.t).

Lemma selected_elem kd :
  kd ∈ selected_documents wh m ↔ m !! kd.1 = Some kd.2 ∧ wh kd.2 = true.
Proof.
  unfold selected_documents. rewrite merge_sort_Permutation, list_elem_of_filter.
  destruct kd as [k d]. rewrite elem_of_map_to_list. simpl. tauto.
Qed.

Lemma selected_NoDup : NoDup (map fst (selected_documents wh m)).
Proof.
  unfold selected_documents. change (map fst) with (fmap (M:=list) (@fst string TimeSlotDoc.t)).
  rewrite merge_sort_Permutation.
  apply (sublist_NoDup _ ((map_to_list m).*1)).
  - apply NoDup_fst_map_to_list.
  - apply fmap_sublist, sublist_filter.
Qed.

Lemma selected_sorted :
  StronglySorted date_time_le (map (fun kd => TimeSlotDoc.data kd.2) (selected_documents wh m)).
Proof.
  apply Sorted_StronglySorted; [apply _|].
  apply Sorted_fmap with (R1 := slot_order).
  - intros x y. apply slot_order_date_time.
  - unfold selected_documents. apply Sorted_merge_sort, _.
Qed.

Lemma query_exactly_sorted :
  exactly_sorted (fun d => wh d = true) m
    (map toTimeSlot (selected_documents wh m)).
Proof.
  split; [|split].
  - intros slot. change (map toTimeSlot (selected_documents wh m))
      with (toTimeSlot <$> selected_documents wh m).
    rewrite list_elem_of_fmap. split.
    + intros ([k d] & -> & Hin). apply selected_elem in Hin as [Hk Hwh].
      by exists d.
    + intros (d & Hk & Hdata & Hwh). exists (TimeSlot.id slot, d). split.
      * destruct slot as [i dat]. unfold toTimeSlot. simpl in *. by rewrite Hdata.
      * by apply selected_elem.
  - rewrite map_map. simpl. apply selected_NoDup.
  - rewrite map_map. simpl. apply selected_sorted.
Qed.
End Query.

Lemma exactly_sorted_iff (P Q : TimeSlotDoc.t -> Prop) m l :
  (∀ d, P d ↔ Q d) -> exactly_sorted P m l -> exactly_sorted Q m l.
Proof.
  intros HPQ (Hin & Hnd & Hsorted). split; [|done].
  intros slot. rewrite Hin. by setoid_rewrite HPQ.
Qed.

Lemma getAvailableTimeSlots_exactly_sorted st :
  faults st = [] ->
  ∃ l, (getAvailableTimeSlots st).1 = Ok l ∧
       exactly_sorted (fun d => TimeSlotDoc.isBooked d = false) (timeSlots st)
         (map SlotWithDoctorInfo.slot l).
Proof.
  intros Hf. rewrite (getAvailableTimeSlots_online st Hf). eexists. split; [done|].
  rewrite map_map. simpl. rewrite map_id.
  pose proof (query_exactly_sorted
                (fun d => bool_decide (TimeSlotDoc.isBooked d = false))
                (timeSlots st)) as Hq.
  eapply exactly_sorted_iff; [|exact Hq].
  intros d. simpl. apply bool_decide_eq_true.
Qed.

Lemma getDoctorTimeSlots_online doctorId st :
  faults st = [] ->
  ∃ l, getDoctorTimeSlots doctorId st = (Ok l, st) ∧
       exactly_sorted
         (fun d => TimeSlotData.doctorId (TimeSlotDoc.data d) = doctorId ∧
                   TimeSlotDoc.isBooked d = false)
         (timeSlots st) l.
Proof.
  intros Hf. unfold getDoctorTimeSlots, try_catch, bind at 1.
  unfold getDocs, bind at 1. rewrite request_eq.
  rewrite (rejected_online st Hf), (after_request_online st Hf).
  simpl. eexists. split; [done|].
  pose proof (query_exactly_sorted
                (fun d => bool_decide
                            (TimeSlotData.doctorId (TimeSlotDoc.data d) = doctorId)
                          && bool_decide (TimeSlotDoc.isBooked d = false))
                (timeSlots st)) as Hq.
  eapply exactly_sorted_iff; [|exact Hq].
  intros d. simpl. by rewrite andb_true_iff, !bool_decide_eq_true.
Qed.

(** The localStorage tier lists exactly the stored slots that are not
    booked and, when a non-empty [doctorId] is given, belong to that
    doctor, in the order of storage. *)
Lemma tempGetAvailableSlots_spec doctorId ls :
  (∀ slot, slot ∈ (tempGetAvailableSlots doctorId ls).1 ↔
           slot ∈ doccare_time_slots ls ∧
           TimeSlot.isBooked slot = false ∧
           (doctorId = None ∨ doctorId = Some "" ∨
            doctorId = Some (TimeSlot.doctorId slot))) ∧
  (tempGetAvailableSlots doctorId ls).1 `sublist_of` doccare_time_slots ls ∧
  (tempGetAvailableSlots doctorId ls).2 = ls.
Proof.
  unfold tempGetAvailableSlots, tempGetTimeSlots.
  destruct doctorId as [[|c s]|]; simpl.
  - split; [|split; [apply sublist_filter|done]].
    intros slot. rewrite list_elem_of_filter. intuition.
  - split; [|split; [|done]].
    + intros slot. rewrite !list_elem_of_filter.
      split; [intros (Hb & Hd & Hin)|intros (Hin & Hb & [Hd|[Hd|Hd]])];
        try done.
      * repeat split; try done. right. right. by rewrite Hd.
      * repeat split; try done. by inversion Hd.
    + etrans; apply sublist_filter.
  - split; [|split; [apply sublist_filter|done]].
    intros slot. rewrite list_elem_of_filter. intuition.
Qed.

Lemma bookAppointment_success_state
    selectedDoctor selectedTimeSlot user newId st :
  faults st = [] ->
  reports_success
    (bookAppointment (Some selectedDoctor) (Some selectedTimeSlot) (Some user)
       newId st).1 ->
  ∃ d, timeSlots st !! TimeSlot.id selectedTimeSlot = Some d ∧
       (bookAppointment (Some selectedDoctor) (Some selectedTimeSlot)
          (Some user) newId st).2 =
       set_timeSlots
         (<[TimeSlot.id selectedTimeSlot := marked true (now st) d]> (timeSlots st))
         (set_appointments
            (<[newId := AppointmentDoc.mk
                          (appointmentData selectedDoctor selectedTimeSlot user)
                          (now st) (now st)]> (appointments st)) st).
Proof.
  intros Hf. rewrite bookAppointment_eq, updateTimeSlotBookingStatus_eq.
  destruct (AppointmentData.defined _); simpl negb; cbv iota; [|done].
  rewrite (rejected_online st Hf), (after_request_online st Hf).
  change (rejected (set_appointments _ st)) with (rejected st).
  rewrite (rejected_online st Hf).
  change (timeSlots (set_appointments _ st)) with (timeSlots st).
  destruct (timeSlots st !! TimeSlot.id selectedTimeSlot) as [d|]; simpl;
    [|done].
  intros _. exists d. split; [done|].
  rewrite after_request_online; done.
Qed.

(** C8, counterexample. The localStorage tier holds two open slots of D1,
    the one of 2024-06-02 stored before the one of 2024-06-01;
    [tempGetAvailableSlots] returns them as stored, the later day first. *)
Lemma tempGetAvailableSlots_not_sorted :
  (tempGetAvailableSlots None Scenario.unsorted_storage).1
    = [Scenario.later_slot; Scenario.slot] ∧
  ¬ Sorted date_time_le
      (map TimeSlot.data
         (tempGetAvailableSlots None Scenario.unsorted_storage).1).
Proof.
  split; [reflexivity|]. intros Hsorted.
  apply Sorted_inv in Hsorted as [_ Hhd]. apply HdRel_inv in Hhd.
  by destruct Hhd as [Hlt | [Hdate _]].
Qed.

(** C8 (as the code has it). With every request served, the Firestore
    readers return exactly the documents of [timeSlots] with [isBooked]
    false ([getDoctorTimeSlots]: those of the given doctor), each once,
    in ascending order of (date, time). A slot just created with
    [isBooked] false is in the listing, and after a successful
    [bookAppointment] no slot with the id of the booked one is. The
    localStorage reader returns exactly the stored slots that are not
    booked (of the given doctor, if one is given), but in the order of
    storage, which need not be the order of (date, time). *)
Theorem open_slot_listings st doctorId newId timeSlotData
    selectedDoctor selectedTimeSlot (patient : Patient.t) appointmentId
    ls tempDoctorId :
  (faults st = [] ->
   (∃ l, (getAvailableTimeSlots st).1 = Ok l ∧
         exactly_sorted (fun d => TimeSlotDoc.isBooked d = false) (timeSlots st)
           (map SlotWithDoctorInfo.slot l)) ∧
   (∃ l, (getDoctorTimeSlots doctorId st).1 = Ok l ∧
         exactly_sorted
           (fun d => TimeSlotData.doctorId (TimeSlotDoc.data d) = doctorId ∧
                     TimeSlotDoc.isBooked d = false)
           (timeSlots st) l) ∧
   (TimeSlotData.isBooked timeSlotData = false ->
    ∃ l, (getAvailableTimeSlots (createTimeSlot newId timeSlotData st).2).1
           = Ok l ∧
         TimeSlot.mk newId timeSlotData ∈ map SlotWithDoctorInfo.slot l) ∧
   (reports_success
      (bookAppointment (Some selectedDoctor) (Some selectedTimeSlot)
         (Some (User.Patient patient)) appointmentId st).1 ->
    ∃ l, (getAvailableTimeSlots
            (bookAppointment (Some selectedDoctor) (Some selectedTimeSlot)
               (Some (User.Patient patient)) appointmentId st).2).1 = Ok l ∧
         TimeSlot.id selectedTimeSlot
           ∉ map TimeSlot.id (map SlotWithDoctorInfo.slot l))) ∧
  (∀ slot, slot ∈ (tempGetAvailableSlots tempDoctorId ls).1 ↔
           slot ∈ doccare_time_slots ls ∧
           TimeSlot.isBooked slot = false ∧
           (tempDoctorId = None ∨ tempDoctorId = Some "" ∨
            tempDoctorId = Some (TimeSlot.doctorId slot))) ∧
  (tempGetAvailableSlots tempDoctorId ls).1 `sublist_of` doccare_time_slots ls.
Proof.
  split.
  { intros Honline.
    split; [by apply getAvailableTimeSlots_exactly_sorted|].
    split.
    { destruct (getDoctorTimeSlots_online doctorId st Honline) as (l & -> & Hl).
      by exists l. }
    split.
    { intros Hopen.
      rewrite createTimeSlot_eq, (rejected_online st Honline),
        (after_request_online st Honline). simpl.
      edestruct (getAvailableTimeSlots_exactly_sorted
                   (set_timeSlots
                      (<[newId := TimeSlotDoc.mk timeSlotData (now st) None]>
                         (timeSlots st)) st))
        as (l & Hl & Hin & _); [done|].
      exists l. split; [done|]. apply Hin. simpl.
      eexists. rewrite lookup_insert_eq. by repeat split. }
    intros Hbooked.
    destruct (bookAppointment_success_state selectedDoctor selectedTimeSlot
                (User.Patient patient) appointmentId st Honline Hbooked)
      as (d & Hd & ->).
    edestruct (getAvailableTimeSlots_exactly_sorted) as (l & Hl & Hin & _);
      [|exists l; split; [exact Hl|]]; [done|].
    change (map TimeSlot.id (map SlotWithDoctorInfo.slot l))
      with (TimeSlot.id <$> map SlotWithDoctorInfo.slot l).
    rewrite list_elem_of_fmap. intros (slot & Hid & Hslot).
    apply Hin in Hslot as (d' & Hlook & _ & Hopen').
    simpl in Hlook. rewrite <- Hid, lookup_insert_eq in Hlook.
    inversion Hlook; subst d'. by vm_compute in Hopen'. }
  pose proof (tempGetAvailableSlots_spec tempDoctorId ls) as (H1 & H2 & _).
  by split.
Qed.

Lemma open_slot_listings_witness :
  faults Scenario.published = [] ∧
  TimeSlotData.isBooked Scenario.slot_data = false ∧
  reports_success (Scenario.P1_books Scenario.published).1 ∧
  (∃ l, (getAvailableTimeSlots
           (createTimeSlot "s2" Scenario.slot_data Scenario.published).2).1
          = Ok l ∧
        TimeSlot.mk "s2" Scenario.slot_data ∈ map SlotWithDoctorInfo.slot l) ∧
  ∃ l, (getAvailableTimeSlots (Scenario.P1_books Scenario.published).2).1 = Ok l ∧
       "s1" ∉ map TimeSlot.id (map SlotWithDoctorInfo.slot l).
Proof.
  assert (Hbooked : reports_success (Scenario.P1_books Scenario.published).1)
    by reflexivity.
  split; [reflexivity|]. split; [reflexivity|]. split; [exact Hbooked|].
  pose proof (proj1
    (open_slot_listings Scenario.published "D1" "s2" Scenario.slot_data
       Scenario.selectedDoctor Scenario.slot Scenario.P1 "a1"
       Scenario.unsorted_storage None) eq_refl) as (_ & _ & Hnew & Hgone).
  split; [exact (Hnew eq_refl)|exact (Hgone Hbooked)].
Defined.

(** ** Appointments keep what the booking copied *)

Lemma with_status_snapshot status a :
  snapshot (AppointmentData.with_status status a) = snapshot a.
Proof. done. Qed.







(** ** Two book calls for the same slot *)


Lemma first_request_eq newId data st :
  (await_ createAppointment newId data; ret ()) st =
  if AppointmentData.defined data then
    if rejected st then (Thrown (rejection st), after_request st)
    else (Ok (),
          set_appointments
            (<[newId := AppointmentDoc.mk data (now st) (now st)]>
               (appointments st))
            (after_request st))
  else (Thrown invalid_argument, st).
Proof.
  unfold bind at 1. rewrite createAppointment_eq.
  destruct (AppointmentData.defined data); [|done]. by destruct (rejected st).
Qed.

(** A call run alone is [bookAppointment]. *)
Lemma bookAppointment_run_call selectedDoctor selectedTimeSlot user newId st :
  let r := run_call 2
             (start (bookAppointment_requests selectedDoctor selectedTimeSlot
                       user newId)) st in
  let b := bookAppointment (Some selectedDoctor) (Some selectedTimeSlot)
             (Some user) newId st in
  r.2 = b.2 ∧
  (succeeded r.1 ↔ reports_success b.1) ∧
  (failed r.1 ↔ reports_failure b.1).
Proof.
  intros r b. subst r b. rewrite bookAppointment_eq.
  unfold run_call, start, bookAppointment_requests, advance. simpl.
  rewrite first_request_eq.
  destruct (AppointmentData.defined _); simpl.
  2: { unfold succeeded, failed. simpl. repeat split; try done. by intros [? ?]. }
  destruct (rejected st); simpl.
  { unfold succeeded, failed. simpl. repeat split; try done. by intros [? ?]. }
  destruct (updateTimeSlotBookingStatus _ _ _) as [[[]|e] st2]; simpl;
    unfold succeeded, failed; simpl; repeat split; try done;
    by intros [? ?].
Qed.


(** The same, one call after the other: what the second call finds is a
    booked slot, and it succeeds too. *)
Example sequential_bookings_double_book :
  reports_success (Scenario.P1_books Scenario.published).1 ∧
  reports_success (Scenario.P2_books Scenario.booked).1 ∧
  AppointmentData.patientId ∘ AppointmentDoc.data <$>
    appointments (Scenario.P2_books Scenario.booked).2 !! "a1" = Some "P1" ∧
  AppointmentData.patientId ∘ AppointmentDoc.data <$>
    appointments (Scenario.P2_books Scenario.booked).2 !! "a2" = Some "P2".
Proof. by vm_compute. Qed.



Example interleavings_two_calls :
  interleavings [false; false] [true; true] =
  [ [false; false; true; true]; [false; true; false; true];
    [false; true; true; false]; [true; false; false; true];
    [true; false; true; false]; [true; true; false; false] ].
Proof. reflexivity. Qed.


(** What a book call does to the store is a history of two writers. *)
Lemma bookAppointment_as_history selectedDoctor selectedTimeSlot user newId st :
  (bookAppointment (Some selectedDoctor) (Some selectedTimeSlot) (Some user)
     newId st).2 =
  exec_all
    (CreateAppointment newId
       (appointmentData selectedDoctor selectedTimeSlot user)
     :: if negb (AppointmentData.defined
                   (appointmentData selectedDoctor selectedTimeSlot user))
           || rejected st
        then []
        else [UpdateTimeSlotBookingStatus (TimeSlot.id selectedTimeSlot) true])
    st.
Proof.
  rewrite bookAppointment_eq. unfold exec_all. simpl.
  rewrite createAppointment_eq.
  destruct (AppointmentData.defined _); simpl; [|done].
  destruct (rejected st); simpl; [done|].
  by destruct (updateTimeSlotBookingStatus _ _ _) as [[[]|e] st2].
Qed.

(* ===================================================================== *)
(** * Further properties *)
(* ===================================================================== *)

(** ** The localStorage tier: users *)

(** X1. [tempCreateUser] keeps the stored users distinguishable: if no
    two stored users share a uid and no two share an email, the same
    holds after the call, whether it returns or throws. *)
Theorem tempCreateUser_keeps_unique userData ls
    (Huid : NoDup (map User.uid (doccare_users ls)))
    (Hemail : NoDup (map User.email (doccare_users ls))) :
  NoDup (map User.uid (doccare_users (tempCreateUser userData ls).2)) ∧
  NoDup (map User.email (doccare_users (tempCreateUser userData ls).2)).
Proof.
  unfold tempCreateUser.
  destruct (list_find _ (doccare_users ls)) as [[i u]|] eqn:Hfind; simpl;
    [done|].
  apply list_find_None in Hfind. rewrite !map_app. simpl.
  split; apply NoDup_app; (split; [done|]);
    (split; [|apply NoDup_singleton]);
    intros x Hx Hx'; apply list_elem_of_singleton in Hx'; subst x;
    change (map ?f ?l) with (f <$> l) in Hx;
    apply list_elem_of_fmap in Hx as (user & Heq & Hin);
    rewrite Forall_forall in Hfind; apply (Hfind user Hin); auto.
Qed.

Lemma tempCreateUser_keeps_unique_witness :
  NoDup (map User.uid (doccare_users TempScenario.registered_storage)) ∧
  NoDup (map User.email (doccare_users TempScenario.registered_storage)) ∧
  (tempCreateUser (User.Patient Scenario.P2)
     TempScenario.registered_storage).1 = Returned (User.Patient Scenario.P2) ∧
  NoDup (map User.uid
           (doccare_users
              (tempCreateUser (User.Patient Scenario.P2)
                 TempScenario.registered_storage).2)) ∧
  NoDup (map User.email
           (doccare_users
              (tempCreateUser (User.Patient Scenario.P2)
                 TempScenario.registered_storage).2)) ∧
  (tempCreateUser (User.Patient TempScenario.P1_again)
     TempScenario.registered_storage).1 = Raised "User already exists" ∧
  NoDup (map User.email
           (doccare_users
              (tempCreateUser (User.Patient TempScenario.P1_again)
                 TempScenario.registered_storage).2)).
Proof.
  assert (Huid : NoDup (map User.uid
                          (doccare_users TempScenario.registered_storage))).
  { apply (bool_decide_unpack _). vm_compute. exact I. }
  assert (Hemail : NoDup (map User.email
                            (doccare_users TempScenario.registered_storage))).
  { apply (bool_decide_unpack _). vm_compute. exact I. }
  split; [exact Huid|]. split; [exact Hemail|]. split; [reflexivity|].
  split; [exact (proj1 (tempCreateUser_keeps_unique (User.Patient Scenario.P2)
                          TempScenario.registered_storage Huid Hemail))|].
  split; [exact (proj2 (tempCreateUser_keeps_unique (User.Patient Scenario.P2)
                          TempScenario.registered_storage Huid Hemail))|].
  split; [reflexivity|].
  exact (proj2 (tempCreateUser_keeps_unique
                  (User.Patient TempScenario.P1_again)
                  TempScenario.registered_storage Huid Hemail)).
Defined.

Lemma list_find_snoc_new {A} (P : A -> Prop) `{!∀ x, Decision (P x)}
    (l : list A) (x : A) :
  Forall (fun y => ¬ P y) l -> P x ->
  snd <$> list_find P (l ++ [x]) = Some x.
Proof.
  intros Hl Hx. rewrite list_find_app_r by (by apply list_find_None).
  simpl. by rewrite decide_True.
Qed.

Lemma list_find_snoc_other {A} (P : A -> Prop) `{!∀ x, Decision (P x)}
    (l : list A) (x : A) :
  ¬ P x -> snd <$> list_find P (l ++ [x]) = snd <$> list_find P l.
Proof.
  intros Hx. destruct (list_find P l) as [[i y]|] eqn:Hfind.
  - by rewrite (list_find_app_l _ _ _ _ _ Hfind).
  - rewrite list_find_app_r by done. simpl. by rewrite decide_False.
Qed.

(** X2. [tempCreateUser] throws "User already exists", and stores
    nothing, exactly when a stored user has the uid or the email of the
    new one. Otherwise it returns the new user, who is then the one
    [tempGetUser] finds under the uid and [tempGetUserByEmail] under the
    email, while every other uid and email finds what it found before. *)
Theorem tempCreateUser_outcome userData ls :
  let r := tempCreateUser userData ls in
  ((∃ user, user ∈ doccare_users ls ∧
            (User.uid user = User.uid userData ∨
             User.email user = User.email userData)) ∧
   r.1 = Raised "User already exists" ∧ r.2 = ls)
  ∨
  ((∀ user, user ∈ doccare_users ls ->
            User.uid user ≠ User.uid userData ∧
            User.email user ≠ User.email userData) ∧
   r.1 = Returned userData ∧
   (tempGetUser (User.uid userData) r.2).1 = Some userData ∧
   (tempGetUserByEmail (User.email userData) r.2).1 = Some userData ∧
   (∀ uid, uid ≠ User.uid userData ->
           (tempGetUser uid r.2).1 = (tempGetUser uid ls).1) ∧
   (∀ email, email ≠ User.email userData ->
             (tempGetUserByEmail email r.2).1 = (tempGetUserByEmail email ls).1)).
Proof.
  intros r. subst r. unfold tempCreateUser.
  destruct (list_find _ (doccare_users ls)) as [[i u]|] eqn:Hfind; simpl.
  - left. apply list_find_Some in Hfind as (Hi & Hu & _).
    split; [|done]. exists u. split; [|done]. by eapply list_elem_of_lookup_2.
  - right. apply list_find_None in Hfind. rewrite Forall_forall in Hfind.
    assert (Hfresh : ∀ user, user ∈ doccare_users ls ->
              User.uid user ≠ User.uid userData ∧
              User.email user ≠ User.email userData).
    { intros user Hin. specialize (Hfind user Hin). tauto. }
    split; [exact Hfresh|]. split; [done|].
    unfold tempGetUser, tempGetUserByEmail. simpl.
    split; [|split; [|split]].
    + apply list_find_snoc_new; [|done].
      apply Forall_forall. intros user Hin. by apply Hfresh.
    + apply list_find_snoc_new; [|done].
      apply Forall_forall. intros user Hin. by apply Hfresh.
    + intros uid Hne. apply list_find_snoc_other. congruence.
    + intros email Hne. apply list_find_snoc_other. congruence.
Qed.

(** ** The localStorage tier: appointments and slots *)

(** X3. [tempUpdateAppointment] returns [null] and stores nothing when no
    stored appointment has the id. Otherwise it rewrites the first stored
    appointment with the id, and only that one, with the given fields
    written over it: every other position, the number of appointments,
    the users, the slots and the session stay as they were. *)
Theorem tempUpdateAppointment_first_match id updates ls :
  let r := tempUpdateAppointment id updates ls in
  (Forall (fun apt => Appointment.id apt ≠ id) (doccare_appointments ls) ∧
   r.1 = None ∧ r.2 = ls)
  ∨
  (∃ i apt,
     doccare_appointments ls !! i = Some apt ∧ Appointment.id apt = id ∧
     (∀ j apt', doccare_appointments ls !! j = Some apt' -> j < i ->
                Appointment.id apt' ≠ id) ∧
     r.1 = Some (spread_updates apt updates) ∧
     doccare_appointments r.2 !! i = Some (spread_updates apt updates) ∧
     (∀ j, j ≠ i ->
           doccare_appointments r.2 !! j = doccare_appointments ls !! j) ∧
     length (doccare_appointments r.2) = length (doccare_appointments ls) ∧
     doccare_users r.2 = doccare_users ls ∧
     doccare_time_slots r.2 = doccare_time_slots ls ∧
     doccare_current_user r.2 = doccare_current_user ls).
Proof.
  intros r. subst r. unfold tempUpdateAppointment.
  destruct (list_find _ (doccare_appointments ls)) as [[i apt]|] eqn:Hfind;
    simpl.
  - right. apply list_find_Some in Hfind as (Hi & Hid & Hfirst).
    exists i, apt. split; [done|]. split; [done|]. split; [exact Hfirst|].
    split; [done|]. split.
    { apply list_lookup_insert_eq. by eapply lookup_lt_Some. }
    split; [|by rewrite length_insert].
    intros j Hne. by apply list_lookup_insert_ne.
  - left. by apply list_find_None in Hfind.
Qed.

Lemma spread_only_status apt s :
  Appointment.id (spread_updates apt (AppointmentUpdates.only_status s))
    = Appointment.id apt ∧
  snapshot (Appointment.data
              (spread_updates apt (AppointmentUpdates.only_status s)))
    = snapshot (Appointment.data apt) ∧
  Appointment.status (spread_updates apt (AppointmentUpdates.only_status s))
    = s ∧
  AppointmentDoc.createdAt
    (Appointment.doc (spread_updates apt (AppointmentUpdates.only_status s)))
    = AppointmentDoc.createdAt (Appointment.doc apt) ∧
  AppointmentDoc.updatedAt
    (Appointment.doc (spread_updates apt (AppointmentUpdates.only_status s)))
    = AppointmentDoc.updatedAt (Appointment.doc apt).
Proof. done. Qed.

(** X4. A status update in the localStorage tier,
    [tempUpdateAppointment(id, { status })], leaves every stored
    appointment with its id, the fields copied at booking and both
    timestamps: only the status of an appointment with the given id can
    change, and [updatedAt] is not refreshed. With no field to write,
    [tempUpdateAppointment(id, {})], the stored appointments are all what
    they were. *)
Theorem tempUpdateAppointment_status_only id s ls :
  Forall2
    (fun old new =>
       Appointment.id new = Appointment.id old ∧
       snapshot (Appointment.data new) = snapshot (Appointment.data old) ∧
       AppointmentDoc.createdAt (Appointment.doc new)
         = AppointmentDoc.createdAt (Appointment.doc old) ∧
       AppointmentDoc.updatedAt (Appointment.doc new)
         = AppointmentDoc.updatedAt (Appointment.doc old) ∧
       (new = old ∨ (Appointment.id old = id ∧ Appointment.status new = s)))
    (doccare_appointments ls)
    (doccare_appointments
       (tempUpdateAppointment id (AppointmentUpdates.only_status s) ls).2) ∧
  doccare_appointments
    (tempUpdateAppointment id AppointmentUpdates.none ls).2
  = doccare_appointments ls.
Proof.
  unfold tempUpdateAppointment. split.
  - destruct (list_find _ (doccare_appointments ls)) as [[i apt]|] eqn:Hfind;
      simpl.
    + apply list_find_Some in Hfind as (Hi & Hid & _).
      apply Forall2_same_length_lookup. split; [by rewrite length_insert|].
      intros j old new Hold Hnew.
      destruct (decide (j = i)) as [->|Hne].
      * rewrite list_lookup_insert_eq in Hnew by (by eapply lookup_lt_Some).
        rewrite Hi in Hold. inversion Hold; inversion Hnew; subst.
        destruct (spread_only_status old s) as (? & ? & ? & ? & ?).
        repeat split; try done. by right.
      * rewrite list_lookup_insert_ne in Hnew by done.
        rewrite Hold in Hnew. inversion Hnew; subst.
        repeat split; try done. by left.
    + apply Forall2_same_length_lookup. split; [done|].
      intros j old new Hold Hnew. rewrite Hold in Hnew. inversion Hnew; subst.
      repeat split; try done. by left.
  - destruct (list_find _ (doccare_appointments ls)) as [[i apt]|] eqn:Hfind;
      simpl; [|done].
    apply list_find_Some in Hfind as (Hi & _ & _).
    apply list_insert_id. rewrite Hi. f_equal.
    by destruct apt as [? [[] ? ?]].
Qed.

Lemma filter_loses_length {A} (P : A -> Prop) `{!∀ x, Decision (P x)}
    (l : list A) :
  length (filter P l) < length l ↔ ∃ x, x ∈ l ∧ ¬ P x.
Proof.
  induction l as [|x l IH].
  - split; [simpl; lia|]. by intros (x & Hx%elem_of_nil & _).
  - rewrite filter_cons. pose proof (length_filter P l).
    destruct (decide (P x)) as [HP|HP]; simpl.
    + rewrite <- Nat.succ_lt_mono, IH. split.
      * intros (y & Hy & HPy). exists y. split; [by right|done].
      * intros (y & Hy & HPy). apply elem_of_cons in Hy as [->|Hy]; [done|].
        by exists y.
    + split; [|lia]. intros _. exists x. split; [by left|done].
Qed.

(** X5. [tempDeleteTimeSlot] returns [true] exactly when a stored slot
    has the id. After the call no stored slot has the id, and the slots
    with another id are all still there; a second call with the same id
    returns [false] and stores nothing. Users, appointments and session
    are not touched. *)
Theorem tempDeleteTimeSlot_removes id ls :
  let r := tempDeleteTimeSlot id ls in
  (r.1 = true ↔ ∃ slot, slot ∈ doccare_time_slots ls ∧ TimeSlot.id slot = id) ∧
  (∀ slot, slot ∈ doccare_time_slots r.2 ↔
           slot ∈ doccare_time_slots ls ∧ TimeSlot.id slot ≠ id) ∧
  doccare_time_slots r.2 `sublist_of` doccare_time_slots ls ∧
  tempDeleteTimeSlot id r.2 = (false, r.2) ∧
  doccare_users r.2 = doccare_users ls ∧
  doccare_appointments r.2 = doccare_appointments ls ∧
  doccare_current_user r.2 = doccare_current_user ls.
Proof.
  intros r.
  assert (Hslots : doccare_time_slots r.2 =
            filter (fun slot => TimeSlot.id slot ≠ id) (doccare_time_slots ls)).
  { subst r. unfold tempDeleteTimeSlot. case_bool_decide; simpl; [done|].
    symmetry. by apply filter_keeps_length. }
  split; [|split; [|split; [|split]]].
  - subst r. unfold tempDeleteTimeSlot. case_bool_decide as Hlen; simpl.
    + split; [|done]. intros _.
      apply filter_loses_length in Hlen as (slot & Hin & Hid).
      exists slot. split; [done|]. by destruct (decide (TimeSlot.id slot = id)).
    + split; [done|]. intros (slot & Hin & Hid). exfalso. apply Hlen.
      apply filter_loses_length. exists slot. split; [done|]. by intros [].
  - intros slot. rewrite Hslots, list_elem_of_filter. tauto.
  - rewrite Hslots. apply sublist_filter.
  - unfold tempDeleteTimeSlot at 1. rewrite bool_decide_eq_false_2; [done|].
    rewrite Hslots. intros Hlen.
    apply filter_loses_length in Hlen as (slot & Hin & Hnot).
    apply list_elem_of_filter in Hin as [Hid _]. tauto.
  - subst r. unfold tempDeleteTimeSlot. by case_bool_decide.
Qed.

Lemma same_tuple_with_isBooked b slot a :
  same_tuple (TimeSlot.with_isBooked b slot) a ↔ same_tuple slot a.
Proof. done. Qed.

Lemma tempCreateAppointment_slots newId appointment ls slot :
  slot ∈ doccare_time_slots (tempCreateAppointment newId appointment ls).2 ↔
  ∃ old, old ∈ doccare_time_slots ls ∧
         ((same_tuple old (AppointmentDoc.data appointment) ∧
           slot = TimeSlot.with_isBooked true old) ∨
          (¬ same_tuple old (AppointmentDoc.data appointment) ∧ slot = old)).
Proof.
  unfold tempCreateAppointment. simpl.
  change (map ?f ?l) with (f <$> l). rewrite list_elem_of_fmap.
  split; intros (old & H1 & H2); exists old.
  - split; [done|]. subst slot. destruct (_ && _) eqn:Htest.
    + left. split; [|done]. by apply tuple_test_spec.
    + right. split; [|done]. rewrite <- tuple_test_spec. by rewrite Htest.
  - split; [|done]. destruct H2 as [[Hsame ->]|[Hother ->]].
    + apply tuple_test_spec in Hsame. by rewrite Hsame.
    + destruct (_ && _) eqn:Htest; [|done].
      apply tuple_test_spec in Htest. tauto.
Qed.

(** X6. After [tempCreateAppointment], whatever doctor filter is given,
    [tempGetAvailableSlots] lists no slot with the (doctorId, date, time)
    of the appointment, and lists a slot with another tuple exactly when
    it listed it before; and the new appointment is in the list
    [tempGetAppointments] gives its patient and in the one it gives its
    doctor. *)
Theorem tempCreateAppointment_then_listings newId appointment ls doctorId :
  let ls' := (tempCreateAppointment newId appointment ls).2 in
  let a := AppointmentDoc.data appointment in
  (∀ slot, slot ∈ (tempGetAvailableSlots doctorId ls').1 -> ¬ same_tuple slot a) ∧
  (∀ slot, ¬ same_tuple slot a ->
           (slot ∈ (tempGetAvailableSlots doctorId ls').1 ↔
            slot ∈ (tempGetAvailableSlots doctorId ls).1)) ∧
  Appointment.mk newId appointment
    ∈ (tempGetAppointments (Some (AppointmentData.patientId a)) (Some patient)
         ls').1 ∧
  Appointment.mk newId appointment
    ∈ (tempGetAppointments (Some (AppointmentData.doctorId a)) (Some doctor)
         ls').1.
Proof.
  intros ls' a.
  destruct (tempGetAvailableSlots_spec doctorId ls') as (Hin' & _ & _).
  destruct (tempGetAvailableSlots_spec doctorId ls) as (Hin & _ & _).
  assert (Happended : Appointment.mk newId appointment ∈ doccare_appointments ls').
  { subst ls'. unfold tempCreateAppointment. simpl.
    apply elem_of_app. right. apply list_elem_of_here. }
  split; [|split; [|split]].
  - intros slot Hslot Hsame. apply Hin' in Hslot as (Hstored & Hopen & _).
    apply tempCreateAppointment_slots in Hstored
      as (old & _ & [[_ ->]|[Hother ->]]); [done|tauto].
  - intros slot Hother. rewrite Hin', Hin.
    subst ls'. rewrite tempCreateAppointment_slots. split.
    + intros ((old & Hold & [[Hsame ->]|[_ ->]]) & Hopen & Hfilter);
        [by apply same_tuple_with_isBooked in Hsame|done].
    + intros (Hstored & Hopen & Hfilter). split; [|done].
      exists slot. split; [done|]. by right.
  - unfold tempGetAppointments.
    destruct (AppointmentData.patientId a) as [|c s] eqn:Hp; simpl; [done|].
    apply list_elem_of_filter. split; [|done]. simpl. by rewrite <- Hp.
  - unfold tempGetAppointments.
    destruct (AppointmentData.doctorId a) as [|c s] eqn:Hd; simpl; [done|].
    apply list_elem_of_filter. split; [|done]. simpl. by rewrite <- Hd.
Qed.

(** X7. [tempCreateTimeSlot] puts the new slot last: the list
    [tempGetAvailableSlots] gives afterwards is the list it gave before,
    followed by the new slot when that slot is not booked and passes the
    doctor filter (no filter, the empty id, or the slot's own doctor). *)
Theorem tempCreateTimeSlot_then_listed newId timeSlot ls doctorId :
  let ls' := (tempCreateTimeSlot newId timeSlot ls).2 in
  (tempGetAvailableSlots doctorId ls').1 =
  (tempGetAvailableSlots doctorId ls).1 ++
  (if bool_decide (TimeSlotData.isBooked timeSlot = false ∧
                   (doctorId = None ∨ doctorId = Some "" ∨
                    doctorId = Some (TimeSlotData.doctorId timeSlot)))
   then [TimeSlot.mk newId timeSlot] else []).
Proof.
  unfold tempCreateTimeSlot, tempGetAvailableSlots, tempGetTimeSlots. simpl.
  destruct doctorId as [[|c s]|]; simpl;
    rewrite ?filter_app, ?filter_cons, ?filter_nil; simpl;
    unfold TimeSlot.isBooked, TimeSlot.doctorId; simpl.
  - destruct (decide (TimeSlotData.isBooked timeSlot = false)) as [Hb|Hb].
    + rewrite bool_decide_eq_true_2; [done|]. auto.
    + rewrite bool_decide_eq_false_2; [done|]. tauto.
  - destruct (decide (TimeSlotData.doctorId timeSlot = String c s)) as [Hd|Hd];
      rewrite ?filter_cons, ?filter_nil; simpl.
    + destruct (decide (TimeSlotData.isBooked timeSlot = false)) as [Hb|Hb].
      * rewrite bool_decide_eq_true_2; [done|]. split; [done|].
        right. right. by rewrite Hd.
      * rewrite bool_decide_eq_false_2; [done|]. tauto.
    + rewrite bool_decide_eq_false_2; [done|].
      intros (_ & [?|[?|Heq]]); try done. inversion Heq. congruence.
  - destruct (decide (TimeSlotData.isBooked timeSlot = false)) as [Hb|Hb].
    + rewrite bool_decide_eq_true_2; [done|]. auto.
    + rewrite bool_decide_eq_false_2; [done|]. tauto.
Qed.

(** ** The Firestore tier: queries in general *)

Section AnyQuery.
Context {D : Type} (wh : D -> bool) (R : relation (string * D))
        `{!RelDecision R} (m : gmap string D).

Lemma query_elem kd :
  kd ∈ merge_sort R (filter (fun kd => wh kd.2 = true) (map_to_list m)) ↔
  m !! kd.1 = Some kd.2 ∧ wh kd.2 = true.
Proof.
  rewrite merge_sort_Permutation, list_elem_of_filter.
  destruct kd as [k d]. rewrite elem_of_map_to_list. simpl. tauto.
Qed.

Lemma query_NoDup :
  NoDup (merge_sort R (filter (fun kd => wh kd.2 = true) (map_to_list m))).*1.
Proof.
  rewrite merge_sort_Permutation.
  apply (sublist_NoDup _ ((map_to_list m).*1)).
  - apply NoDup_fst_map_to_list.
  - apply fmap_sublist, sublist_filter.
Qed.

Lemma query_Sorted `{!Total R} :
  Sorted R (merge_sort R (filter (fun kd => wh kd.2 = true) (map_to_list m))).
Proof. apply Sorted_merge_sort, _. Qed.
End AnyQuery.

Lemma getDocs_eq {D} (c : Collection D) (wh : D -> bool)
    (R : relation (string * D)) `{!RelDecision R} st :
  getDocs c wh R st =
  if rejected st then (Thrown (rejection st), after_request st)
  else (Ok (merge_sort R (filter (fun kd => wh kd.2 = true)
                                 (map_to_list (coll_get c (after_request st))))),
        after_request st).
Proof.
  unfold getDocs, bind. rewrite request_eq. by destruct (rejected st).
Qed.

Lemma same_documents_refl st : same_documents st st.
Proof. done. Qed.

Lemma same_documents_after_request st : same_documents st (after_request st).
Proof. done. Qed.

Lemma same_documents_trans st1 st2 st3 :
  same_documents st1 st2 -> same_documents st2 st3 -> same_documents st1 st3.
Proof.
  unfold same_documents. intros (? & ? & ? & ?) (? & ? & ? & ?).
  repeat split; congruence.
Qed.

(** The lookups of doctors in [getAvailableTimeSlots] never throw: the
    entries come out for the slots given, in their order. *)
Lemma promise_all_doctor_info slots st :
  ∃ l st',
    promise_all
      (fun slot =>
         await doctor <- getUserDocument (TimeSlot.doctorId slot);
         ret (SlotWithDoctorInfo.mk slot
                (or_default (User.name <$> doctor) "Unknown Doctor")
                (or_default (doctor ≫= User.specialty) "General")))
      slots st = (Ok l, st') ∧
    map SlotWithDoctorInfo.slot l = slots ∧ same_documents st st'.
Proof.
  revert st. induction slots as [|slot slots IH]; intros st; simpl.
  - by exists [], st.
  - unfold bind at 1. unfold bind at 1. rewrite getUserDocument_eq.
    unfold ret at 1.
    destruct (IH (after_request st)) as (l & st' & Hl & Hslots & Hsame).
    unfold bind at 1. rewrite Hl. unfold ret.
    eexists _, st'. split; [done|]. simpl. split; [by rewrite Hslots|].
    eapply same_documents_trans; [apply same_documents_after_request|done].
Qed.

Lemma getAvailableTimeSlots_cases st :
  (rejected st = true ∧ getAvailableTimeSlots st = (Ok [], after_request st))
  ∨
  (rejected st = false ∧
   ∃ l st', getAvailableTimeSlots st = (Ok l, st') ∧
            map SlotWithDoctorInfo.slot l
              = map toTimeSlot (open_documents (timeSlots st)) ∧
            same_documents st st').
Proof.
  destruct (rejected st) eqn:Hrej; [left|right]; (split; [done|]);
    unfold getAvailableTimeSlots, try_catch, bind at 1;
    rewrite getDocs_eq, Hrej; [done|].
  change (coll_get TIME_SLOTS (after_request st)) with (timeSlots st).
  fold (selected_documents
          (fun d => bool_decide (TimeSlotDoc.isBooked d = false))
          (timeSlots st)).
  fold (open_documents (timeSlots st)).
  destruct (promise_all_doctor_info
              (map toTimeSlot (open_documents (timeSlots st)))
              (after_request st)) as (l & st' & -> & Hslots & Hsame).
  exists l, st'. split; [done|]. split; [done|].
  eapply same_documents_trans; [apply same_documents_after_request|done].
Qed.

Lemma getDoctors_eq st :
  getDoctors st =
  (Ok (if rejected st then []
       else map snd (merge_sort user_order
                       (filter (fun kd => bool_decide (User.role kd.2 = doctor)
                                          = true)
                               (map_to_list (users st))))),
   after_request st).
Proof.
  unfold getDoctors, try_catch, bind, ret. rewrite getDocs_eq.
  by destruct (rejected st).
Qed.

Lemma getDoctorTimeSlots_eq doctorId st :
  getDoctorTimeSlots doctorId st =
  (Ok (if rejected st then []
       else map toTimeSlot
              (selected_documents
                 (fun d => bool_decide
                             (TimeSlotData.doctorId (TimeSlotDoc.data d)
                              = doctorId)
                           && bool_decide (TimeSlotDoc.isBooked d = false))
                 (timeSlots st))),
   after_request st).
Proof.
  unfold getDoctorTimeSlots, try_catch, bind, ret. rewrite getDocs_eq.
  by destruct (rejected st).
Qed.

Lemma getPatientAppointments_eq patientId st :
  getPatientAppointments patientId st =
  (Ok (if rejected st then []
       else map toAppointment
              (merge_sort appointment_order
                 (filter (fun kd => bool_decide
                                      (AppointmentData.patientId
                                         (AppointmentDoc.data kd.2) = patientId)
                                    = true)
                         (map_to_list (appointments st))))),
   after_request st).
Proof.
  unfold getPatientAppointments, try_catch, bind, ret. rewrite getDocs_eq.
  by destruct (rejected st).
Qed.

Lemma getDoctorAppointments_eq doctorId st :
  getDoctorAppointments doctorId st =
  (Ok (if rejected st then []
       else map toAppointment
              (merge_sort appointment_order
                 (filter (fun kd => bool_decide
                                      (AppointmentData.doctorId
                                         (AppointmentDoc.data kd.2) = doctorId)
                                    = true)
                         (map_to_list (appointments st))))),
   after_request st).
Proof.
  unfold getDoctorAppointments, try_catch, bind, ret. rewrite getDocs_eq.
  by destruct (rejected st).
Qed.

(** X8. The readers of the Firestore tier never throw and never write:
    in every state of the backend, whatever requests it is going to
    reject, [getUserDocument], [getDoctors], [getDoctorTimeSlots],
    [getAvailableTimeSlots], [getPatientAppointments] and
    [getDoctorAppointments] return a value, and the documents of the
    three collections and the clock are what they were. *)
Theorem readers_never_throw_nor_write st id :
  (∃ v, (getUserDocument id st).1 = Ok v) ∧
  same_documents st (getUserDocument id st).2 ∧
  (∃ v, (getDoctors st).1 = Ok v) ∧
  same_documents st (getDoctors st).2 ∧
  (∃ v, (getDoctorTimeSlots id st).1 = Ok v) ∧
  same_documents st (getDoctorTimeSlots id st).2 ∧
  (∃ v, (getAvailableTimeSlots st).1 = Ok v) ∧
  same_documents st (getAvailableTimeSlots st).2 ∧
  (∃ v, (getPatientAppointments id st).1 = Ok v) ∧
  same_documents st (getPatientAppointments id st).2 ∧
  (∃ v, (getDoctorAppointments id st).1 = Ok v) ∧
  same_documents st (getDoctorAppointments id st).2.
Proof.
  rewrite getUserDocument_eq, getDoctors_eq, getDoctorTimeSlots_eq,
    getPatientAppointments_eq, getDoctorAppointments_eq.
  destruct (getAvailableTimeSlots_cases st)
    as [(_ & ->)|(_ & l & st' & -> & _ & Hs)];
    simpl; split_and!; eauto using same_documents_after_request.
Qed.

(** X9. [getAvailableTimeSlots] answers a rejected query with the empty
    list, as if no slot were open. When the query is served it lists
    exactly the slots with [isBooked] false, each once, in ascending
    order of (date, time), whether or not the lookups of the doctors
    that follow are served. *)
Theorem getAvailableTimeSlots_swallows_rejection st :
  (rejected st = true ∧ (getAvailableTimeSlots st).1 = Ok [])
  ∨
  (rejected st = false ∧
   ∃ l, (getAvailableTimeSlots st).1 = Ok l ∧
        exactly_sorted (fun d => TimeSlotDoc.isBooked d = false) (timeSlots st)
          (map SlotWithDoctorInfo.slot l)).
Proof.
  destruct (getAvailableTimeSlots_cases st)
    as [(Hrej & ->)|(Hrej & l & st' & -> & Hslots & _)]; [by left|right].
  split; [done|]. exists l. split; [done|]. rewrite Hslots.
  pose proof (query_exactly_sorted
                (fun d => bool_decide (TimeSlotDoc.isBooked d = false))
                (timeSlots st)) as Hq.
  eapply exactly_sorted_iff; [|exact Hq].
  intros d. simpl. apply bool_decide_eq_true.
Qed.

(** ** The Firestore tier: appointments and doctors *)

#[global] Instance appointment_order_total : Total appointment_order.
Proof.
  intros x y. unfold appointment_order, appointment_leb.
  rewrite (String.compare_antisym
             (AppointmentData.date (AppointmentDoc.data y.2))).
  destruct (String.compare (AppointmentData.date (AppointmentDoc.data x.2)) _);
    simpl; auto.
  apply String.leb_total.
Qed.

#[global] Instance user_order_total : Total user_order.
Proof.
  intros x y. unfold user_order, user_leb.
  rewrite (String.compare_antisym (User.name y.2)).
  destruct (String.compare (User.name x.2) _); simpl; auto.
  apply String.leb_total.
Qed.

Lemma appointment_order_date x y :
  appointment_order x y ->
  string_le (AppointmentData.date (AppointmentDoc.data y.2))
            (AppointmentData.date (AppointmentDoc.data x.2)).
Proof.
  unfold appointment_order, appointment_leb. intros H.
  apply string_le_lt_eq. unfold string_lt.
  destruct (String.compare _ _) eqn:Hc; try done; [|by left].
  right. by apply String.compare_eq_iff.
Qed.

Lemma user_order_name x y :
  user_order x y -> string_le (User.name x.2) (User.name y.2).
Proof.
  unfold user_order, user_leb. intros H.
  apply string_le_lt_eq. unfold string_lt.
  destruct (String.compare _ _) eqn:Hc; try done; [|by left].
  right. by apply String.compare_eq_iff.
Qed.

Lemma appointments_query_latest_first (wh : AppointmentDoc.t -> bool) m :
  exactly_latest_first (fun d => wh d = true) m
    (map toAppointment
       (merge_sort appointment_order
          (filter (fun kd => wh kd.2 = true) (map_to_list m)))).
Proof.
  split; [|split].
  - intros a. change (map toAppointment ?l) with (toAppointment <$> l).
    rewrite list_elem_of_fmap. split.
    + intros ([k d] & -> & Hin). by apply query_elem in Hin.
    + intros (Hk & Hwh). exists (Appointment.id a, Appointment.doc a).
      split; [by destruct a|]. by apply query_elem.
  - rewrite map_map. simpl. apply (query_NoDup wh appointment_order m).
  - apply Sorted_StronglySorted.
    { intros a b c Hab Hbc. by etrans. }
    change (map toAppointment ?l) with (toAppointment <$> l).
    apply Sorted_fmap with (R1 := appointment_order).
    + intros x y. apply appointment_order_date.
    + apply query_Sorted, _.
Qed.

Lemma exactly_latest_first_iff (P Q : AppointmentDoc.t -> Prop) m l :
  (∀ d, P d ↔ Q d) -> exactly_latest_first P m l -> exactly_latest_first Q m l.
Proof.
  intros HPQ (Hin & Hnd & Hsorted). split; [|done].
  intros a. rewrite Hin. by rewrite HPQ.
Qed.

(** X10. [getPatientAppointments] and [getDoctorAppointments] answer a
    rejected query with the empty list. When the query is served they
    return exactly the appointments of the patient, respectively of the
    doctor, each once, the later dates first. *)
Theorem appointments_listed_latest_first patientId doctorId st :
  (rejected st = true ∧
   (getPatientAppointments patientId st).1 = Ok [] ∧
   (getDoctorAppointments doctorId st).1 = Ok [])
  ∨
  (rejected st = false ∧
   (∃ l, (getPatientAppointments patientId st).1 = Ok l ∧
         exactly_latest_first
           (fun d => AppointmentData.patientId (AppointmentDoc.data d)
                     = patientId)
           (appointments st) l) ∧
   (∃ l, (getDoctorAppointments doctorId st).1 = Ok l ∧
         exactly_latest_first
           (fun d => AppointmentData.doctorId (AppointmentDoc.data d)
                     = doctorId)
           (appointments st) l)).
Proof.
  rewrite getPatientAppointments_eq, getDoctorAppointments_eq.
  destruct (rejected st); simpl; [by left|right].
  split; [done|]. split; eexists; (split; [done|]).
  - pose proof (appointments_query_latest_first
                  (fun d => bool_decide
                              (AppointmentData.patientId (AppointmentDoc.data d)
                               = patientId)) (appointments st)) as Hq.
    eapply exactly_latest_first_iff; [|exact Hq].
    intros d. simpl. apply bool_decide_eq_true.
  - pose proof (appointments_query_latest_first
                  (fun d => bool_decide
                              (AppointmentData.doctorId (AppointmentDoc.data d)
                               = doctorId)) (appointments st)) as Hq.
    eapply exactly_latest_first_iff; [|exact Hq].
    intros d. simpl. apply bool_decide_eq_true.
Qed.

(** X11. [getDoctors] answers a rejected query with the empty list. When
    the query is served it returns the documents of [users] with role
    doctor, one entry per document, in ascending order of name. *)
Theorem getDoctors_sorted_by_name st :
  (rejected st = true ∧ (getDoctors st).1 = Ok [])
  ∨
  (rejected st = false ∧
   ∃ l, (getDoctors st).1 = Ok l ∧
        l ≡ₚ (filter (fun kd => User.role kd.2 = doctor)
                     (map_to_list (users st))).*2 ∧
        (∀ u, u ∈ l ↔ (∃ id, users st !! id = Some u) ∧ User.role u = doctor) ∧
        StronglySorted (fun a b => string_le (User.name a) (User.name b)) l).
Proof.
  rewrite getDoctors_eq. destruct (rejected st); simpl; [by left|right].
  split; [done|]. eexists. split; [done|].
  change (map snd ?l) with (l.*2).
  split; [|split].
  - rewrite merge_sort_Permutation. apply fmap_Permutation.
    apply Permutation_refl'. apply list_filter_iff.
    intros kd. apply bool_decide_eq_true.
  - intros u. rewrite list_elem_of_fmap. split.
    + intros ([k d] & -> & Hin).
      destruct (proj1 (query_elem
                         (fun u => bool_decide (User.role u = doctor))
                         user_order (users st) (k, d)) Hin) as [Hk Hwh].
      split; [by exists k|]. by apply bool_decide_eq_true in Hwh.
    + intros ((k & Hk) & Hrole). exists (k, u). split; [done|].
      pose proof (query_elem (fun u => bool_decide (User.role u = doctor))
                    user_order (users st) (k, u)) as Hq.
      apply (proj2 Hq). split; [done|]. by apply bool_decide_eq_true.
  - apply Sorted_StronglySorted.
    { intros a b c Hab Hbc. by etrans. }
    apply Sorted_fmap with (R1 := user_order).
    + intros x y. apply user_order_name.
    + exact (query_Sorted (fun u => bool_decide (User.role u = doctor))
               user_order (users st)).
Qed.

(** ** The Firestore tier: writers *)

(** X12. A profile written by [createUserDocument] is the profile
    [getUserDocument] reads back under its uid, whatever was stored
    there before (the write overwrites); the documents of the other
    users, the appointments and the slots are not touched. *)
Theorem createUserDocument_then_get userData st
    (Hwrite : rejected st = false)
    (Hread : rejected (after_request st) = false) :
  let st1 := (createUserDocument userData st).2 in
  (createUserDocument userData st).1 = Ok userData ∧
  (getUserDocument (User.uid userData) st1).1 = Ok (Some userData) ∧
  (∀ uid, uid ≠ User.uid userData -> users st1 !! uid = users st !! uid) ∧
  appointments st1 = appointments st ∧ timeSlots st1 = timeSlots st.
Proof.
  intros st1. subst st1. rewrite createUserDocument_eq, Hwrite. simpl.
  rewrite getUserDocument_eq.
  change (rejected (set_users _ (after_request st)))
    with (rejected (after_request st)).
  rewrite Hread. simpl. rewrite lookup_insert_eq.
  split; [done|]. split; [done|]. split; [|done].
  intros uid Hne. by rewrite lookup_insert_ne.
Qed.

Lemma createUserDocument_then_get_witness :
  rejected Scenario.published = false ∧
  rejected (after_request Scenario.published) = false ∧
  (getUserDocument "D1"
     (createUserDocument (User.Doctor Scenario.D1_retrained)
        Scenario.published).2).1
  = Ok (Some (User.Doctor Scenario.D1_retrained)).
Proof.
  split; [reflexivity|]. split; [reflexivity|].
  exact (proj1 (proj2
    (createUserDocument_then_get (User.Doctor Scenario.D1_retrained)
       Scenario.published eq_refl eq_refl))).
Defined.

(** X13. Deleting a slot that [createTimeSlot] has just created under a
    new id gives back the collection of slots as it was before. *)
Theorem createTimeSlot_then_delete newId timeSlotData st
    (Hnew : timeSlots st !! newId = None)
    (Hcreate : rejected st = false)
    (Hdelete : rejected (after_request st) = false) :
  let created := createTimeSlot newId timeSlotData st in
  let st2 := (deleteTimeSlot newId created.2).2 in
  TimeSlot.id <$> match created.1 with Ok slot => Some slot | Thrown _ => None end
    = Some newId ∧
  (deleteTimeSlot newId created.2).1 = Ok () ∧
  timeSlots st2 = timeSlots st ∧
  users st2 = users st ∧ appointments st2 = appointments st.
Proof.
  intros created st2. subst created st2.
  rewrite createTimeSlot_eq, Hcreate. simpl. rewrite deleteTimeSlot_eq.
  change (rejected (set_timeSlots _ (after_request st)))
    with (rejected (after_request st)).
  rewrite Hdelete. simpl. split; [done|]. split; [done|]. split; [|done].
  by rewrite delete_insert_id.
Qed.

Lemma createTimeSlot_then_delete_witness :
  timeSlots Scenario.published !! "s2" = None ∧
  rejected Scenario.published = false ∧
  rejected (after_request Scenario.published) = false ∧
  timeSlots
    (deleteTimeSlot "s2"
       (createTimeSlot "s2" (TimeSlot.data Scenario.later_slot)
          Scenario.published).2).2
  = timeSlots Scenario.published.
Proof.
  split; [reflexivity|]. split; [reflexivity|]. split; [reflexivity|].
  exact (proj1 (proj2 (proj2
    (createTimeSlot_then_delete "s2" (TimeSlot.data Scenario.later_slot)
       Scenario.published eq_refl eq_refl eq_refl)))).
Defined.



(** X15. The two updates do not create: when no document has the id,
    [updateTimeSlotBookingStatus] and [updateAppointmentStatus] throw
    although the request is served, the documents are what they were,
    and [handleUpdateAppointmentStatus] shows the failure. *)
Theorem updates_of_missing_documents id isBooked status st
    (Hserved : rejected st = false)
    (Hslot : timeSlots st !! id = None)
    (Happointment : appointments st !! id = None) :
  (updateTimeSlotBookingStatus id isBooked st).1 = Thrown not_found ∧
  same_documents st (updateTimeSlotBookingStatus id isBooked st).2 ∧
  (updateAppointmentStatus id status st).1 = Thrown not_found ∧
  same_documents st (updateAppointmentStatus id status st).2 ∧
  (handleUpdateAppointmentStatus id status st).1
    = Ok (Some (notify "Failed to update appointment" error)) ∧
  same_documents st (handleUpdateAppointmentStatus id status st).2.
Proof.
  rewrite handleUpdateAppointmentStatus_eq, updateTimeSlotBookingStatus_eq,
    updateAppointmentStatus_eq, Hserved, Hslot, Happointment.
  simpl. split_and!; done.
Qed.

Lemma updates_of_missing_documents_witness :
  rejected Scenario.published = false ∧
  timeSlots Scenario.published !! "a1" = None ∧
  appointments Scenario.published !! "a1" = None ∧
  (handleUpdateAppointmentStatus "a1" confirmed Scenario.published).1
    = Ok (Some (notify "Failed to update appointment" error)).
Proof.
  split; [reflexivity|]. split; [reflexivity|]. split; [reflexivity|].
  exact (proj1 (proj2 (proj2 (proj2 (proj2
    (updates_of_missing_documents "a1" true confirmed Scenario.published
       eq_refl eq_refl eq_refl)))))).
Defined.



(** ** The booking page: loading and selecting *)

Lemma map_get_None k m : map_get k m = None ↔ k ∉ map fst m.
Proof.
  induction m as [|[k' e] m IH]; simpl.
  - split; [intros _; apply not_elem_of_nil | done].
  - case_bool_decide as Hk.
    + subst k'. split; [done|]. intros H. exfalso. apply H. left.
    + rewrite IH, not_elem_of_cons. split; [intros ?; split; congruence | tauto].
Qed.

Lemma map_get_Some k m e : map_get k m = Some e -> (k, e) ∈ m.
Proof.
  induction m as [|[k' e'] m IH]; simpl; [done|].
  case_bool_decide as Hk.
  - intros [= ->]. subst k'. left.
  - intros H. right. auto.
Qed.

Lemma map_has_false k m : map_has k m = false ↔ k ∉ map fst m.
Proof.
  unfold map_has. rewrite <- map_get_None. by destruct (map_get k m).
Qed.

Lemma map_update_keys f k m : map fst (map_update f k m) = map fst m.
Proof.
  induction m as [|[k' e] m IH]; simpl; [done|].
  case_bool_decide; simpl; by rewrite ?IH.
Qed.

Lemma map_update_elem f k m k' e' :
  NoDup (map fst m) -> (k', e') ∈ map_update f k m ->
  (k' ≠ k ∧ (k', e') ∈ m) ∨ (k' = k ∧ ∃ e, e' = f e ∧ (k, e) ∈ m).
Proof.
  induction m as [|[k0 e0] m IH]; simpl.
  - intros _ H. by apply elem_of_nil in H.
  - rewrite NoDup_cons. intros [Hk0 Hnd]. case_bool_decide as Hk.
    + subst k0. intros Hin. apply elem_of_cons in Hin.
      destruct Hin as [[= -> ->]|Hin].
      * right. split; [done|]. exists e0. split; [done|]. left.
      * left. split; [|by right]. intros ->. apply Hk0.
        apply list_elem_of_fmap. by exists (k, e').
    + intros Hin. apply elem_of_cons in Hin.
      destruct Hin as [[= -> ->]|Hin].
      * left. split; [done|]. left.
      * destruct (IH Hnd Hin) as [[? ?]|[-> (e & -> & ?)]].
        -- left. split; [done|]. by right.
        -- right. split; [done|]. exists e. split; [done|]. by right.
Qed.

Lemma map_get_snoc k e m :
  k ∉ map fst m -> map_get k (m ++ [(k, e)]) = Some e.
Proof.
  induction m as [|[k' e'] m IH]; simpl.
  - intros _. by rewrite bool_decide_eq_true_2.
  - rewrite not_elem_of_cons. intros [Hne Hk].
    rewrite bool_decide_eq_false_2 by congruence. auto.
Qed.

Lemma map_update_snoc f k e m :
  k ∉ map fst m -> map_update f k (m ++ [(k, e)]) = m ++ [(k, f e)].
Proof.
  induction m as [|[k' e'] m IH]; simpl.
  - intros _. by rewrite bool_decide_eq_true_2.
  - rewrite not_elem_of_cons. intros [Hne Hk].
    rewrite bool_decide_eq_false_2 by congruence. by rewrite IH.
Qed.

(** The three ways a turn of the loop goes. *)
Lemma group_with_cases answer m slot :
  let k := TimeSlot.doctorId (SlotWithDoctorInfo.slot slot) in
  group_with answer m slot =
  match map_get k m, answer with
  | Some _, _ => map_update (DoctorEntry.push slot) k m
  | None, Some u => m ++ [(k, DoctorEntry.mk u [slot])]
  | None, None => m
  end.
Proof.
  intros k. unfold group_with. fold k. unfold map_has.
  destruct (map_get k m) as [e|] eqn:Hget.
  - by rewrite Hget.
  - apply map_get_None in Hget. destruct answer as [u|].
    + unfold map_set. rewrite (proj2 (map_has_false k m) Hget).
      rewrite map_get_snoc by done. by rewrite map_update_snoc.
    + by rewrite (proj2 (map_get_None k m) Hget).
Qed.

Lemma group_slot_eq m slot st :
  let k := TimeSlot.doctorId (SlotWithDoctorInfo.slot slot) in
  group_slot m slot st =
  if map_has k m then (Ok (group_with None m slot), st)
  else (Ok (group_with (if rejected st then None else users st !! k) m slot),
        after_request st).
Proof.
  intros k. unfold group_slot, group_with. fold k.
  destruct (map_has k m) eqn:Hhas.
  - reflexivity.
  - unfold bind at 1. unfold bind at 1. rewrite getUserDocument_eq.
    reflexivity.
Qed.

Lemma of_doctor_snoc k done slot :
  of_doctor k (done ++ [slot]) =
  of_doctor k done ++
  (if bool_decide (TimeSlot.doctorId (SlotWithDoctorInfo.slot slot) = k)
   then [slot] else []).
Proof.
  unfold of_doctor. rewrite filter_app. f_equal.
  case_bool_decide.
  - by rewrite filter_cons_True.
  - by rewrite filter_cons_False.
Qed.

Lemma of_doctor_nil k l :
  (∀ s, s ∈ l -> TimeSlot.doctorId (SlotWithDoctorInfo.slot s) ≠ k) ->
  of_doctor k l = [].
Proof.
  unfold of_doctor. induction l as [|s l IH]; [done|]. intros H.
  rewrite filter_cons_False by (apply H; left).
  apply IH. intros s' Hs'. apply H. by right.
Qed.

Lemma grouped_step us answer done m slot :
  answer = None ∨
  answer = us !! TimeSlot.doctorId (SlotWithDoctorInfo.slot slot) ->
  grouped us done m -> grouped us (done ++ [slot]) (group_with answer m slot).
Proof.
  intros Hanswer [Hnd Hm]. rewrite group_with_cases.
  set (k := TimeSlot.doctorId (SlotWithDoctorInfo.slot slot)) in *.
  destruct (map_get k m) as [e|] eqn:Hget.
  - split; [by rewrite map_update_keys|].
    intros k' e' Hin.
    destruct (map_update_elem _ _ _ _ _ Hnd Hin) as [[Hne Hin']|[-> (e0 & -> & Hin')]].
    + destruct (Hm _ _ Hin') as (? & ? & Hsub). split_and!; [done..|].
      rewrite of_doctor_snoc. fold k.
      rewrite bool_decide_eq_false_2 by congruence. by rewrite app_nil_r.
    + destruct (Hm _ _ Hin') as (? & ? & Hsub). split_and!; [done| |].
      * simpl. by destruct (DoctorEntry.availableSlots e0).
      * rewrite of_doctor_snoc. fold k. rewrite bool_decide_eq_true_2 by done.
        simpl. by apply sublist_app.
  - apply map_get_None in Hget.
    assert (Hold : ∀ k' e', (k', e') ∈ m ->
              us !! k' = Some (DoctorEntry.user e') ∧
              DoctorEntry.availableSlots e' ≠ [] ∧
              sublist (DoctorEntry.availableSlots e')
                      (of_doctor k' (done ++ [slot]))).
    { intros k' e' Hin. destruct (Hm _ _ Hin) as (? & ? & Hsub).
      split_and!; [done..|]. rewrite of_doctor_snoc. fold k.
      rewrite bool_decide_eq_false_2; [by rewrite app_nil_r|].
      intros <-. apply Hget. apply list_elem_of_fmap. by exists (k, e'). }
    destruct answer as [u|]; [|by split].
    destruct Hanswer as [|Hu]; [done|]. split.
    + rewrite map_app. simpl. apply NoDup_app. split; [done|]. split.
      * intros x Hx Hx'. apply list_elem_of_singleton in Hx'. by subst x.
      * apply NoDup_singleton.
    + intros k' e' Hin. apply elem_of_app in Hin.
      destruct Hin as [Hin|Hin]; [by apply Hold|].
      apply list_elem_of_singleton in Hin. injection Hin as -> ->.
      simpl. split_and!; [done|done|].
      rewrite of_doctor_snoc. fold k. rewrite bool_decide_eq_true_2 by done.
      apply sublist_inserts_l. reflexivity.
Qed.

Lemma grouped_all_step us done m slot :
  grouped_all us done m ->
  grouped_all us (done ++ [slot])
    (group_with (us !! TimeSlot.doctorId (SlotWithDoctorInfo.slot slot)) m slot).
Proof.
  intros (Hnd & Hm & Hcov). rewrite group_with_cases.
  set (k := TimeSlot.doctorId (SlotWithDoctorInfo.slot slot)) in *.
  destruct (map_get k m) as [e|] eqn:Hget.
  - split_and!; [by rewrite map_update_keys| |].
    + intros k' e' Hin.
      destruct (map_update_elem _ _ _ _ _ Hnd Hin)
        as [[Hne Hin']|[-> (e0 & -> & Hin')]].
      * destruct (Hm _ _ Hin') as (? & ? & Heq). split_and!; [done..|].
        rewrite of_doctor_snoc. fold k.
        rewrite bool_decide_eq_false_2 by congruence. by rewrite app_nil_r.
      * destruct (Hm _ _ Hin') as (? & ? & Heq). split_and!; [done| |].
        -- simpl. by destruct (DoctorEntry.availableSlots e0).
        -- rewrite of_doctor_snoc. fold k.
           rewrite bool_decide_eq_true_2 by done. simpl. by rewrite Heq.
    + intros s Hs Hsome. rewrite map_update_keys. apply elem_of_app in Hs.
      destruct Hs as [Hs|Hs]; [by apply Hcov|].
      apply list_elem_of_singleton in Hs. subst s.
      fold k. apply map_get_Some in Hget. apply list_elem_of_fmap.
      by exists (k, e).
  - apply map_get_None in Hget.
    assert (Hold : ∀ k' e', (k', e') ∈ m ->
              us !! k' = Some (DoctorEntry.user e') ∧
              DoctorEntry.availableSlots e' ≠ [] ∧
              DoctorEntry.availableSlots e' = of_doctor k' (done ++ [slot])).
    { intros k' e' Hin. destruct (Hm _ _ Hin) as (? & ? & Heq).
      split_and!; [done..|]. rewrite of_doctor_snoc. fold k.
      rewrite bool_decide_eq_false_2; [by rewrite app_nil_r|].
      intros <-. apply Hget. apply list_elem_of_fmap. by exists (k, e'). }
    destruct (us !! k) as [u|] eqn:Hu.
    + split_and!.
      * rewrite map_app. simpl. apply NoDup_app. split; [done|]. split.
        -- intros x Hx Hx'. apply list_elem_of_singleton in Hx'. by subst x.
        -- apply NoDup_singleton.
      * intros k' e' Hin. apply elem_of_app in Hin.
        destruct Hin as [Hin|Hin]; [by apply Hold|].
        apply list_elem_of_singleton in Hin. injection Hin as -> ->.
        simpl. split_and!; [done|done|].
        rewrite of_doctor_snoc. fold k. rewrite bool_decide_eq_true_2 by done.
        assert (Hnone : of_doctor k done = []).
        { apply of_doctor_nil. intros s Hs Hk.
          apply Hget. rewrite <- Hk. apply Hcov; [done|].
          rewrite Hk. by rewrite Hu. }
        by rewrite Hnone.
      * intros s Hs Hsome. rewrite map_app. apply elem_of_app.
        apply elem_of_app in Hs.
        destruct Hs as [Hs|Hs]; [left; by apply Hcov|].
        apply list_elem_of_singleton in Hs. subst s.
        right. simpl. fold k. by apply list_elem_of_singleton.
    + split_and!; [done|done|].
      intros s Hs Hsome. apply elem_of_app in Hs.
      destruct Hs as [Hs|Hs]; [by apply Hcov|].
      apply list_elem_of_singleton in Hs. subst s.
      fold k in Hsome. rewrite Hu in Hsome. by destruct Hsome.
Qed.

Lemma grouped_nil us : grouped us [] [].
Proof.
  split; [apply NoDup_nil_2|]. intros k e H. by apply elem_of_nil in H.
Qed.

Lemma grouped_all_nil us : grouped_all us [] [].
Proof.
  split_and!; [apply NoDup_nil_2| |].
  - intros k e H. by apply elem_of_nil in H.
  - intros s H. by apply elem_of_nil in H.
Qed.

(** The loop never throws and writes nothing, and keeps the grouping. *)
Lemma for_of_group_slot us l : ∀ m st done,
  users st = us -> grouped us done m ->
  ∃ m' st', for_of group_slot l m st = (Ok m', st') ∧
            same_documents st st' ∧ grouped us (done ++ l) m'.
Proof.
  induction l as [|slot l IH]; intros m st done Hus Hm; simpl.
  - exists m, st. rewrite app_nil_r. by split_and!.
  - unfold bind at 1. rewrite group_slot_eq. rewrite cons_middle, app_assoc.
    destruct (map_has _ m).
    + apply IH; [done|]. apply grouped_step; [by left|done].
    + destruct (IH (group_with
                      (if rejected st then None
                       else users st !!
                              TimeSlot.doctorId (SlotWithDoctorInfo.slot slot))
                      m slot)
                   (after_request st) (done ++ [slot]))
        as (m' & st' & Heq & Hsame & Hm'); [done| |].
      * apply grouped_step; [|done]. destruct (rejected st); [by left|].
        right. by rewrite Hus.
      * exists m', st'. split_and!; [done| |done].
        eapply same_documents_trans; [apply same_documents_after_request|done].
Qed.

Lemma group_with_listed a b m slot :
  map_has (TimeSlot.doctorId (SlotWithDoctorInfo.slot slot)) m = true ->
  group_with a m slot = group_with b m slot.
Proof.
  intros Hhas. rewrite !group_with_cases. unfold map_has in Hhas.
  by destruct (map_get _ m).
Qed.

Lemma for_of_group_slot_online l : ∀ m st done,
  faults st = [] -> grouped_all (users st) done m ->
  ∃ m', for_of group_slot l m st = (Ok m', st) ∧
        grouped_all (users st) (done ++ l) m'.
Proof.
  induction l as [|slot l IH]; intros m st done Hf Hm; simpl.
  - exists m. rewrite app_nil_r. by split.
  - unfold bind at 1. rewrite group_slot_eq. rewrite cons_middle, app_assoc.
    rewrite (rejected_online st Hf), (after_request_online st Hf).
    destruct (map_has _ m) eqn:Hhas.
    + apply IH; [done|].
      rewrite (group_with_listed None
                 (users st !! TimeSlot.doctorId (SlotWithDoctorInfo.slot slot)))
        by done.
      by apply grouped_all_step.
    + apply IH; [done|]. by apply grouped_all_step.
Qed.

Lemma loadAvailableSlots_eq page st :
  ∃ l m st',
    loadAvailableSlots page st =
      (Ok (BookAppointmentPage.setLoading false
             (BookAppointmentPage.setDoctorsWithSlots (map_values m) page)),
       st') ∧
    same_documents st st' ∧ grouped (users st) l m ∧
    (if rejected st then m = []
     else map SlotWithDoctorInfo.slot l = open_slots st).
Proof.
  unfold loadAvailableSlots, try_catch, bind at 1. unfold bind at 1.
  destruct (getAvailableTimeSlots_cases st)
    as [[Hrej Heq]|[Hrej (l & st1 & Heq & Hl & Hsame)]]; rewrite Heq, Hrej.
  - exists [], [], (after_request st). simpl.
    split_and!; [done|done|apply grouped_nil|done].
  - destruct (for_of_group_slot (users st) l [] st1 [])
      as (m & st2 & Hfor & Hsame2 & Hm).
    { by destruct Hsame as (-> & _). }
    { apply grouped_nil. }
    exists l, m, st2. unfold bind at 1. rewrite Hfor. simpl.
    split_and!; [done| |done|done].
    by eapply same_documents_trans.
Qed.

Lemma loadAvailableSlots_online page st :
  faults st = [] ->
  ∃ m,
    loadAvailableSlots page st =
      (Ok (BookAppointmentPage.setLoading false
             (BookAppointmentPage.setDoctorsWithSlots (map_values m) page)),
       st) ∧
    grouped_all (users st) (map (withDoctorInfo (users st)) (open_slots st)) m.
Proof.
  intros Hf. unfold loadAvailableSlots, try_catch, bind at 1. unfold bind at 1.
  rewrite (getAvailableTimeSlots_online st Hf).
  destruct (for_of_group_slot_online
              (map (withDoctorInfo (users st)) (open_slots st)) [] st [] Hf)
    as (m & Hfor & Hm); [apply grouped_all_nil|].
  exists m. unfold bind at 1. unfold open_slots in Hfor. rewrite Hfor.
  by split.
Qed.

Lemma of_doctor_slots k l :
  map SlotWithDoctorInfo.slot (of_doctor k l) =
  filter (fun s => TimeSlot.doctorId s = k) (map SlotWithDoctorInfo.slot l).
Proof.
  unfold of_doctor. induction l as [|s l IH]; [done|]. simpl.
  destruct (decide (TimeSlot.doctorId (SlotWithDoctorInfo.slot s) = k)).
  - rewrite !filter_cons_True by done. simpl. by rewrite IH.
  - by rewrite !filter_cons_False by done.
Qed.

Lemma of_doctor_withDoctorInfo us k l :
  of_doctor k (map (withDoctorInfo us) l) =
  map (withDoctorInfo us) (filter (fun s => TimeSlot.doctorId s = k) l).
Proof.
  unfold of_doctor. induction l as [|s l IH]; [done|]. simpl.
  destruct (decide (TimeSlot.doctorId s = k)).
  - rewrite !filter_cons_True by done. simpl. by rewrite IH.
  - by rewrite !filter_cons_False by done.
Qed.

Lemma map_values_elem e m : e ∈ map_values m -> ∃ k, (k, e) ∈ m.
Proof.
  unfold map_values. intros H. apply list_elem_of_fmap in H.
  destruct H as ([k e'] & -> & H). by exists k.
Qed.

(** X17. [loadAvailableSlots] never shows its failure notification and
    never throws: whatever the backend does, it writes nothing, leaves
    the notification and the selection of the page as they were, and
    ends the loading state; when the backend rejects the query, the
    page lists no doctor. *)
Theorem loadAvailableSlots_never_reports_failure page st :
  ∃ listed st',
    loadAvailableSlots page st =
      (Ok (BookAppointmentPage.setLoading false
             (BookAppointmentPage.setDoctorsWithSlots listed page)), st') ∧
    same_documents st st' ∧
    (rejected st = true -> listed = []).
Proof.
  destruct (loadAvailableSlots_eq page st) as (l & m & st' & Heq & Hsame & _ & Hl).
  exists (map_values m), st'. split_and!; [done..|].
  intros Hrej. rewrite Hrej in Hl. by subst m.
Qed.

(** X18. Whatever requests the backend rejects, the doctors the page
    lists after [loadAvailableSlots] are the values of a map with one
    entry per doctor id: each entry carries the user document stored
    under its id and at least one slot, and its slots are open slots of
    that doctor in the store, in the order of the query. *)
Theorem loadAvailableSlots_groups_by_doctor page st :
  ∃ doctorMap page',
    (loadAvailableSlots page st).1 = Ok page' ∧
    BookAppointmentPage.doctorsWithSlots page' = map_values doctorMap ∧
    NoDup (map fst doctorMap) ∧
    ∀ k e, (k, e) ∈ doctorMap ->
      users st !! k = Some (DoctorEntry.user e) ∧
      DoctorEntry.availableSlots e ≠ [] ∧
      sublist (map SlotWithDoctorInfo.slot (DoctorEntry.availableSlots e))
              (filter (fun s => TimeSlot.doctorId s = k) (open_slots st)).
Proof.
  destruct (loadAvailableSlots_eq page st)
    as (l & m & st' & Heq & _ & [Hnd Hm] & Hl).
  exists m. eexists. rewrite Heq. simpl. split_and!; [done..|].
  intros k e Hin. destruct (Hm k e Hin) as (Hu & Hne & Hsub).
  split_and!; [done..|].
  destruct (rejected st).
  - subst m. by apply elem_of_nil in Hin.
  - rewrite <- Hl, <- of_doctor_slots. by apply fmap_sublist.
Qed.

(** X19. When every request is served, [loadAvailableSlots] lists
    exactly the doctors that have a user document and an open slot, and
    under each all the open slots of that doctor, in the order of the
    query and with the name and specialty of the document. *)
Theorem loadAvailableSlots_lists_all_when_served page st
    (Hserved : faults st = []) :
  ∃ doctorMap page',
    loadAvailableSlots page st = (Ok page', st) ∧
    BookAppointmentPage.doctorsWithSlots page' = map_values doctorMap ∧
    NoDup (map fst doctorMap) ∧
    (∀ k e, (k, e) ∈ doctorMap ->
       users st !! k = Some (DoctorEntry.user e) ∧
       DoctorEntry.availableSlots e ≠ [] ∧
       DoctorEntry.availableSlots e =
         map (withDoctorInfo (users st))
             (filter (fun s => TimeSlot.doctorId s = k) (open_slots st))) ∧
    (∀ s, s ∈ open_slots st ->
       is_Some (users st !! TimeSlot.doctorId s) ->
       TimeSlot.doctorId s ∈ map fst doctorMap).
Proof.
  destruct (loadAvailableSlots_online page st Hserved)
    as (m & Heq & Hnd & Hm & Hcov).
  exists m. eexists. split_and!; [done..| |].
  - intros k e Hin. destruct (Hm k e Hin) as (Hu & Hne & Hslots).
    split; [done|]. split; [done|].
    by rewrite Hslots, of_doctor_withDoctorInfo.
  - intros s Hs Hsome.
    apply (Hcov (withDoctorInfo (users st) s)); [|done].
    apply list_elem_of_fmap. by exists s.
Qed.

Lemma loadAvailableSlots_lists_all_when_served_witness :
  faults Scenario.published = [] ∧
  ∃ doctorMap page',
    loadAvailableSlots BookAppointmentPage.initial Scenario.published
      = (Ok page', Scenario.published) ∧
    BookAppointmentPage.doctorsWithSlots page' = map_values doctorMap ∧
    NoDup (map fst doctorMap) ∧
    (∀ k e, (k, e) ∈ doctorMap ->
       users Scenario.published !! k = Some (DoctorEntry.user e) ∧
       DoctorEntry.availableSlots e ≠ [] ∧
       DoctorEntry.availableSlots e =
         map (withDoctorInfo (users Scenario.published))
             (filter (fun s => TimeSlot.doctorId s = k)
                     (open_slots Scenario.published))) ∧
    (∀ s, s ∈ open_slots Scenario.published ->
       is_Some (users Scenario.published !! TimeSlot.doctorId s) ->
       TimeSlot.doctorId s ∈ map fst doctorMap).
Proof.
  split; [reflexivity|].
  apply (loadAvailableSlots_lists_all_when_served
           BookAppointmentPage.initial Scenario.published).
  reflexivity.
Defined.

Lemma click_keeps_listed page c :
  selection_listed page -> selection_listed (click page c) ∧
  BookAppointmentPage.doctorsWithSlots (click page c)
    = BookAppointmentPage.doctorsWithSlots page.
Proof.
  intros Hp. pose proof Hp as [Hd Hs]. unfold click.
  destruct (BookAppointmentPage.loading page); [by split|].
  destruct c as [i|j].
  - destruct (BookAppointmentPage.doctorsWithSlots page !! i) as [e|] eqn:Hi;
      [|by split].
    split; [|done]. split; simpl.
    + intros e' [= <-]. by eapply list_elem_of_lookup_2.
    + by intros s.
  - destruct (BookAppointmentPage.selectedDoctor page) as [e|] eqn:He;
      [|by split].
    destruct (DoctorEntry.availableSlots e !! j) as [s|] eqn:Hj; [|by split].
    split; [|done]. split; simpl.
    + intros e' He'. apply Hd. congruence.
    + intros s' [= <-]. exists e. split; [done|].
      by eapply list_elem_of_lookup_2.
Qed.

Lemma clicks_keep_listed cs : ∀ page,
  selection_listed page -> selection_listed (clicks cs page) ∧
  BookAppointmentPage.doctorsWithSlots (clicks cs page)
    = BookAppointmentPage.doctorsWithSlots page.
Proof.
  unfold clicks. induction cs as [|c cs IH]; intros page Hp; simpl; [done|].
  destruct (click_keeps_listed page c Hp) as [Hp' Heq].
  destruct (IH _ Hp') as [? ?]. split; [done|congruence].
Qed.

(** X20. Whatever the patient presses on the loaded page, the slot the
    page holds as selected is one of the slots listed under the selected
    doctor; so, user documents being stored under their uid, the
    appointment [bookAppointment] builds from the selection names the
    doctor, date and time of a slot that was open in the store when the
    page loaded, and the doctor is the one stored under that slot's
    [doctorId]. *)
Theorem selection_is_a_listed_slot st cs e s d user
    (Hkeyed : users_keyed st)
    (He : BookAppointmentPage.selectedDoctor (clicks cs (loaded st)) = Some e)
    (Hs : BookAppointmentPage.selectedTimeSlot (clicks cs (loaded st)) = Some s)
    (Hd : asDoctorWithSlots e = Some d) :
  s ∈ DoctorEntry.availableSlots e ∧
  SlotWithDoctorInfo.slot s ∈ open_slots st ∧
  users st !! TimeSlot.doctorId (SlotWithDoctorInfo.slot s)
    = Some (User.Doctor (DoctorWithSlots.doctor d)) ∧
  same_tuple (SlotWithDoctorInfo.slot s)
             (appointmentData d (SlotWithDoctorInfo.slot s) user).
Proof.
  destruct (loadAvailableSlots_eq BookAppointmentPage.initial st)
    as (l & m & st' & Heq & _ & [Hnd Hm] & Hl).
  assert (Hloaded : loaded st =
            BookAppointmentPage.setLoading false
              (BookAppointmentPage.setDoctorsWithSlots (map_values m)
                 BookAppointmentPage.initial)).
  { unfold loaded. by rewrite Heq. }
  destruct (clicks_keep_listed cs (loaded st)) as [[Hdoc Hslot] Hlist].
  { rewrite Hloaded. by split. }
  destruct (Hslot s Hs) as (e' & He' & Hin). rewrite He in He'.
  injection He' as <-.
  pose proof (Hdoc e He) as Hlisted. rewrite Hlist, Hloaded in Hlisted.
  simpl in Hlisted. destruct (map_values_elem _ _ Hlisted) as [k Hk].
  destruct (Hm k e Hk) as (Hu & _ & Hsub).
  pose proof (elem_of_sublist _ _ _ Hin Hsub) as Hof.
  unfold of_doctor in Hof. apply list_elem_of_filter in Hof.
  destruct Hof as [Hk' Hsl].
  destruct (rejected st).
  { subst m. by apply elem_of_nil in Hk. }
  unfold asDoctorWithSlots in Hd.
  destruct (DoctorEntry.user e) as [p|d0] eqn:Huser; [done|].
  injection Hd as <-. simpl.
  pose proof (Hkeyed k _ Hu) as Huid. simpl in Huid.
  split_and!.
  - done.
  - rewrite <- Hl. apply list_elem_of_fmap. by exists s.
  - by rewrite Hk'.
  - unfold same_tuple, appointmentData, DoctorWithSlots.uid. simpl.
    split_and!; [congruence|done|done].
Qed.

Lemma users_keyed_published : users_keyed Scenario.published.
Proof.
  intros k u. unfold Scenario.published, Scenario.all_users. simpl.
  rewrite !lookup_insert_Some, lookup_empty.
  intros [[<- <-]|[_ [[<- <-]|[_ [[<- <-]|[_ ?]]]]]]; done.
Qed.

Lemma selection_is_a_listed_slot_witness :
  users_keyed Scenario.published ∧
  same_tuple Scenario.slot
    (appointmentData Scenario.selectedDoctor Scenario.slot
       (User.Patient Scenario.P1)).
Proof.
  split; [exact users_keyed_published|].
  exact (proj2 (proj2 (proj2
    (selection_is_a_listed_slot Scenario.published
       [DoctorCard 0; SlotButton 0]
       (DoctorEntry.mk (User.Doctor Scenario.D1)
          [SlotWithDoctorInfo.mk Scenario.slot "Dr. Sarah Johnson"
             "cardiology"])
       (SlotWithDoctorInfo.mk Scenario.slot "Dr. Sarah Johnson" "cardiology")
       Scenario.selectedDoctor (User.Patient Scenario.P1)
       users_keyed_published eq_refl eq_refl eq_refl)))).
Defined.

(** ** What the writers keep *)

Lemma exec_users op st :
  users (exec op st) = users st ∨
  ∃ u, users (exec op st) = <[User.uid u := u]> (users st).
Proof.
  destruct op as [u|n t|s|s b|n a|i status|later|fs]; simpl.
  - rewrite createUserDocument_eq. destruct (rejected st); simpl; eauto.
  - rewrite createTimeSlot_eq. destruct (rejected st); simpl; eauto.
  - rewrite deleteTimeSlot_eq. destruct (rejected st); simpl; eauto.
  - rewrite updateTimeSlotBookingStatus_eq.
    destruct (rejected st); simpl; eauto.
    destruct (timeSlots st !! s); simpl; eauto.
  - rewrite createAppointment_eq.
    destruct (AppointmentData.defined a); simpl; eauto.
    destruct (rejected st); simpl; eauto.
  - rewrite updateAppointmentStatus_eq. destruct (rejected st); simpl; eauto.
    destruct (appointments st !! i); simpl; eauto.
  - eauto.
  - eauto.
Qed.

Lemma exec_appointments op st :
  appointments (exec op st) = appointments st ∨
  ∃ id d, appointments (exec op st) = <[id := d]> (appointments st).
Proof.
  destruct op as [u|n t|s|s b|n a|i status|later|fs]; simpl.
  - rewrite createUserDocument_eq. destruct (rejected st); simpl; eauto.
  - rewrite createTimeSlot_eq. destruct (rejected st); simpl; eauto.
  - rewrite deleteTimeSlot_eq. destruct (rejected st); simpl; eauto.
  - rewrite updateTimeSlotBookingStatus_eq.
    destruct (rejected st); simpl; eauto.
    destruct (timeSlots st !! s); simpl; eauto.
  - rewrite createAppointment_eq.
    destruct (AppointmentData.defined a); simpl; eauto.
    destruct (rejected st); simpl; eauto.
  - rewrite updateAppointmentStatus_eq. destruct (rejected st); simpl; eauto.
    destruct (appointments st !! i); simpl; eauto.
  - eauto.
  - eauto.
Qed.

(** X21. Every writer of [lib/firestore.ts] keeps the user documents
    under their own uid: if every user document is stored under its
    uid, it is so after any sequence of calls of the writers, whatever
    requests the backend rejects in between. *)
Theorem writers_keep_users_keyed ops st
    (Hkeyed : users_keyed st) :
  users_keyed (exec_all ops st).
Proof.
  revert st Hkeyed. unfold exec_all.
  induction ops as [|op ops IH]; intros st Hkeyed; simpl; [done|].
  apply IH. intros k u.
  destruct (exec_users op st) as [->|[u' ->]]; [apply Hkeyed|].
  rewrite lookup_insert_Some. intros [[<- <-]|[_ Hk]]; [done|].
  by apply Hkeyed.
Qed.

Lemma writers_keep_users_keyed_witness :
  users_keyed Scenario.published ∧
  users_keyed (exec_all Scenario.history Scenario.published).
Proof.
  split; [exact users_keyed_published|].
  exact (writers_keep_users_keyed Scenario.history Scenario.published
           users_keyed_published).
Defined.

(** X22. No writer of [lib/firestore.ts] removes a user document or an
    appointment: after any sequence of calls of the writers the ids of
    both collections include the ids they had. *)
Theorem writers_never_delete_users_or_appointments ops st :
  dom (users st) ⊆ dom (users (exec_all ops st)) ∧
  dom (appointments st) ⊆ dom (appointments (exec_all ops st)).
Proof.
  revert st. unfold exec_all.
  induction ops as [|op ops IH]; intros st; simpl; [done|].
  destruct (IH (exec op st)) as [Hu Ha]. split.
  - etrans; [|exact Hu].
    destruct (exec_users op st) as [->|[u' ->]]; [done|].
    rewrite dom_insert. apply union_subseteq_r.
  - etrans; [|exact Ha].
    destruct (exec_appointments op st) as [->|(id & d & ->)]; [done|].
    rewrite dom_insert. apply union_subseteq_r.
Qed.

(** ** The routes *)

Lemma ProtectedRoute_cases ctx requiredRole children :
  AuthContext.loading ctx = false ->
  match AuthContext.user ctx with
  | None => ProtectedRoute ctx (Some requiredRole) children = Navigates "/login"
  | Some u =>
      match User.role u, requiredRole with
      | patient, patient | doctor, doctor =>
          ProtectedRoute ctx (Some requiredRole) children = Shows children
      | patient, doctor =>
          ProtectedRoute ctx (Some requiredRole) children
            = Navigates "/patient/dashboard"
      | doctor, patient =>
          ProtectedRoute ctx (Some requiredRole) children
            = Navigates "/doctor/dashboard"
      end
  end.
Proof.
  intros Hl. unfold ProtectedRoute. rewrite Hl.
  destruct (AuthContext.user ctx) as [u|]; [|done].
  by destruct (User.role u), requiredRole.
Qed.

Lemma Router_cases ctx location :
  Router ctx location = Shows Landing ∨
  Router ctx location = Shows Login ∨
  Router ctx location = Shows Register ∨
  Router ctx location = ProtectedRoute ctx (Some patient) PatientDashboard ∨
  Router ctx location = ProtectedRoute ctx (Some patient) BookAppointment ∨
  Router ctx location = ProtectedRoute ctx (Some doctor) DoctorDashboard ∨
  Router ctx location = ProtectedRoute ctx (Some doctor) ManageAvailability ∨
  Router ctx location = Shows NotFound.
Proof.
  unfold Router. repeat (destruct (route_matches _ location); [tauto|]). tauto.
Qed.

(** The paths [navigate] is called with are matched by their own
    routes. *)
Lemma Router_redirects ctx :
  Router ctx "/login" = Shows Login ∧
  Router ctx "/patient/dashboard"
    = ProtectedRoute ctx (Some patient) PatientDashboard ∧
  Router ctx "/doctor/dashboard"
    = ProtectedRoute ctx (Some doctor) DoctorDashboard.
Proof. split_and!; reflexivity. Qed.

Lemma settle_once ctx location :
  settle 1 ctx location =
  match Router ctx location with
  | Shows c => Some (location, c)
  | Spinner => None
  | Navigates path =>
      match Router ctx path with
      | Shows c => Some (path, c)
      | _ => None
      end
  end.
Proof. reflexivity. Qed.

(** X23. Once the authentication state is loaded, the router comes to a
    page after at most one redirect, wherever it starts and however the
    location is written (wouter matches a path whatever the case of its
    letters and with or without a slash at the end): there is no
    redirect loop. The page it comes to is written for the role of the
    signed-in user or for everybody; without a signed-in user it is a
    public page. *)
Theorem router_settles_on_permitted_page ctx location
    (Hloaded : AuthContext.loading ctx = false) :
  ∃ path c,
    settle 1 ctx location = Some (path, c) ∧
    (∀ r, page_role c = Some r ->
          ∃ u, AuthContext.user ctx = Some u ∧ User.role u = r).
Proof.
  rewrite settle_once.
  destruct (Router_redirects ctx) as (Hlogin & Hpatient & Hdoctor).
  pose proof (fun r c => ProtectedRoute_cases ctx r c Hloaded) as Hroute.
  pose proof (Hroute patient PatientDashboard) as Hpp.
  pose proof (Hroute patient BookAppointment) as Hpb.
  pose proof (Hroute doctor DoctorDashboard) as Hdd.
  pose proof (Hroute doctor ManageAvailability) as Hdm.
  destruct (AuthContext.user ctx) as [u|] eqn:Hu;
    [destruct (User.role u) eqn:Hr|];
    destruct (Router_cases ctx location)
      as [H|[H|[H|[H|[H|[H|[H|H]]]]]]];
    rewrite H, ?Hpp, ?Hpb, ?Hdd, ?Hdm, ?Hlogin, ?Hpatient, ?Hdoctor,
      ?Hpp, ?Hdd;
    (eexists _, _; split; [reflexivity|]); simpl; intros r' [= <-]; eauto.
Qed.

Lemma router_settles_on_permitted_page_witness :
  AuthContext.loading
    (AuthContext.mk (Some (User.Doctor Scenario.D1)) false) = false ∧
  Router (AuthContext.mk (Some (User.Doctor Scenario.D1)) false)
    "/Book-Appointment/" = Navigates "/doctor/dashboard" ∧
  ∃ path c,
    settle 1 (AuthContext.mk (Some (User.Doctor Scenario.D1)) false)
      "/Book-Appointment/" = Some (path, c) ∧
    (∀ r, page_role c = Some r ->
          ∃ u, AuthContext.user
                 (AuthContext.mk (Some (User.Doctor Scenario.D1)) false)
               = Some u ∧ User.role u = r).
Proof.
  split; [reflexivity|]. split; [reflexivity|].
  apply (router_settles_on_permitted_page
           (AuthContext.mk (Some (User.Doctor Scenario.D1)) false)
           "/Book-Appointment/").
  reflexivity.
Defined.

(** ** Signing in *)

Lemma login_eq describe uid s st ls :
  login describe (Credential uid) s st ls =
  settled login_message
    (found (if rejected st then None else users st !! uid))
    (AuthState.setLoading true (AuthState.setError None s))
    (after_request st) ls.
Proof. unfold login. by rewrite getUserDocument_eq. Qed.

Lemma authStateChanged_eq uid s st ls :
  authStateChanged (Some uid) s st ls =
  let s := AuthState.setError None (AuthState.setLoading true s) in
  match (match (if rejected st then None else users st !! uid) with
         | Some userDoc => Some userDoc
         | None => (tempGetUser uid ls).1
         end) with
  | Some userDoc =>
      mkCalled false
        (AuthState.setLoading false (AuthState.setUser (Some userDoc) s))
        (after_request st) (tempSetCurrentUser (Some userDoc) ls)
  | None =>
      mkCalled false (AuthState.setLoading false (AuthState.setUser None s))
        (after_request st) ls
  end.
Proof. unfold authStateChanged. by rewrite getUserDocument_eq. Qed.

Lemma register_attempt_eq describe uid email userData st ls :
  register_attempt describe (Credential uid) email userData st ls =
  let newUserData := ProfileData.withIdentity uid email userData in
  if rejected st then
    if storage_fallback (rejection st) then
      match tempCreateUser newUserData ls with
      | (Returned newUser, ls') => (inr newUser, after_request st, ls')
      | (Raised message, ls') =>
          (inl (JsError.mk None message), after_request st, ls')
      end
    else (inl (js_error describe (rejection st)), after_request st, ls)
  else
    (inr newUserData,
     set_users (<[User.uid newUserData := newUserData]> (users st))
       (after_request st), ls).
Proof.
  unfold register_attempt. rewrite createUserDocument_eq.
  by destruct (rejected st).
Qed.


Lemma withIdentity_uid uid email userData :
  User.uid (ProfileData.withIdentity uid email userData) = uid.
Proof. by destruct userData. Qed.




(** X27. A user registered while Firestore rejected the write (as
    [unavailable] or [permission-denied], the rejections after which
    [register] goes to localStorage) cannot sign in with [login]: the
    profile is in localStorage only, so as long as Firestore has no
    document under the uid, [login] throws "User data not found" for
    the account, although the callback of [onAuthStateChanged] finds
    the user in localStorage. *)
Theorem registered_offline_cannot_login describe uid email userData s st ls
    s2 st2
    (Hrejected : rejected st = true)
    (Hfallback : storage_fallback (rejection st) = true)
    (Hnew : ¬ known_to_storage (ProfileData.withIdentity uid email userData) ls)
    (Hnone : users st2 !! uid = None) :
  let newUser := ProfileData.withIdentity uid email userData in
  let registered := register describe (Credential uid) email userData s st ls in
  outcome registered = Returned newUser ∧
  outcome (login describe (Credential uid) s2 st2 (storage registered))
    = Raised "User data not found" ∧
  AuthState.user
    (hook (authStateChanged (Some uid) s2 st2 (storage registered)))
    = Some newUser.
Proof.
  intros newUser registered. subst registered.
  unfold register. rewrite register_attempt_eq, Hrejected, Hfallback.
  cbv zeta. fold newUser. unfold tempCreateUser.
  destruct (list_find _ (doccare_users ls)) as [[i u]|] eqn:Hfind.
  { exfalso. apply Hnew. apply list_find_Some in Hfind as (Hi & Hu & _).
    exists u. split; [|done]. by eapply list_elem_of_lookup_2. }
  apply list_find_None in Hfind. rewrite Forall_forall in Hfind.
  rewrite login_eq, authStateChanged_eq, Hnone.
  assert (Hget : ∀ b : bool,
            (if b then None else @None User.t) = None) by (by intros []).
  rewrite Hget. simpl. split; [done|]. split; [done|].
  rewrite list_find_snoc_new; [done| |apply withIdentity_uid].
  apply Forall_forall. intros u Hu Huid. apply (Hfind u Hu). left.
  unfold newUser. by rewrite withIdentity_uid.
Qed.

Lemma registered_offline_cannot_login_witness :
  rejected (set_faults [Some unavailable] Scenario.published) = true ∧
  storage_fallback
    (rejection (set_faults [Some unavailable] Scenario.published)) = true ∧
  ¬ known_to_storage
      (ProfileData.withIdentity "P3" "p3@example.com"
         (ProfileData.Patient "Pat Three" 40 other))
      Scenario.unsorted_storage ∧
  users Scenario.published !! "P3" = None ∧
  outcome
    (login (fun _ => "offline") (Credential "P3") AuthState.initial
       Scenario.published
       (storage
          (register (fun _ => "offline") (Credential "P3") "p3@example.com"
             (ProfileData.Patient "Pat Three" 40 other) AuthState.initial
             (set_faults [Some unavailable] Scenario.published)
             Scenario.unsorted_storage)))
  = Raised "User data not found".
Proof.
  assert (Hnew : ¬ known_to_storage
                     (ProfileData.withIdentity "P3" "p3@example.com"
                        (ProfileData.Patient "Pat Three" 40 other))
                     Scenario.unsorted_storage).
  { intros (u & Hu & _). simpl in Hu. by apply elem_of_nil in Hu. }
  split; [reflexivity|]. split; [reflexivity|]. split; [exact Hnew|].
  split; [reflexivity|].
  exact (proj1 (proj2
    (registered_offline_cannot_login (fun _ => "offline") "P3"
       "p3@example.com" (ProfileData.Patient "Pat Three" 40 other)
       AuthState.initial (set_faults [Some unavailable] Scenario.published)
       Scenario.unsorted_storage AuthState.initial Scenario.published
       eq_refl eq_refl Hnew eq_refl))).
Defined.


(** ** The sample data and the reset of localStorage *)

Lemma sampleDay_length dateStr extra uid :
  length (sampleDay dateStr extra uid) = 4 + (if extra then 1 else 0).
Proof. by destruct extra. Qed.

Lemma sampleDay_slots dateStr extra uid slot :
  slot ∈ sampleDay dateStr extra uid ->
  TimeSlot.doctorId slot = uid ∧ TimeSlot.date slot = dateStr ∧
  TimeSlot.time slot ∈ times ∧ TimeSlot.isBooked slot = false.
Proof.
  unfold sampleDay. intros Hin. apply list_elem_of_fmap in Hin.
  destruct Hin as (time & -> & Hin). split_and!; try done. simpl.
  eapply elem_of_sublist; [exact Hin|]. apply sublist_take.
Qed.

Lemma sampleWeek_length (dateStr : nat -> string) (random : nat -> bool) uid :
  28 ≤ length (concat (map (fun i => sampleDay (dateStr i) (random i) uid)
                           (seq 1 7))) ≤ 35.
Proof.
  cbn [seq map concat]. rewrite !length_app, !sampleDay_length. simpl.
  destruct (random 1), (random 2), (random 3), (random 4), (random 5),
    (random 6), (random 7); lia.
Qed.

Lemma sampleWeek_slots (dateStr : nat -> string) (random : nat -> bool) uid slot :
  slot ∈ concat (map (fun i => sampleDay (dateStr i) (random i) uid) (seq 1 7)) ->
  TimeSlot.doctorId slot = uid ∧ TimeSlot.time slot ∈ times ∧
  TimeSlot.isBooked slot = false.
Proof.
  cbn [seq map concat]. rewrite !elem_of_app.
  intros [Hin|[Hin|[Hin|[Hin|[Hin|[Hin|[Hin|Hin]]]]]]];
    [apply sampleDay_slots in Hin; tauto..|by apply elem_of_nil in Hin].
Qed.

Lemma filter_all {A} (P : A -> Prop) `{!∀ x, Decision (P x)} (l : list A) :
  (∀ x, x ∈ l -> P x) -> filter P l = l.
Proof.
  induction l as [|x l IH]; [done|]. intros Hall.
  rewrite filter_cons_True by (apply Hall; left).
  f_equal. apply IH. intros y Hy. apply Hall. by right.
Qed.

(** X29. [tempInitializeSampleData] replaces the users and the slots of
    localStorage and keeps its appointments and its current user.
    Whatever the dates and the random choices, it stores between 84 and
    105 slots and returns their number; every slot is open, so
    [tempGetAvailableSlots] lists them all, belongs to one of the three
    sample doctors and has one of the ten times. *)
Theorem tempInitializeSampleData_resets dateStr random ls :
  let r := tempInitializeSampleData dateStr random ls in
  doccare_appointments r.2 = doccare_appointments ls ∧
  doccare_current_user r.2 = doccare_current_user ls ∧
  doccare_users r.2
    = map User.Doctor sampleDoctors ++ map User.Patient samplePatients ∧
  (tempGetDoctors r.2).1 = map User.Doctor sampleDoctors ∧
  SampleCounts.timeSlots r.1 = length (doccare_time_slots r.2) ∧
  84 ≤ SampleCounts.timeSlots r.1 ≤ 105 ∧
  (tempGetAvailableSlots None r.2).1 = doccare_time_slots r.2 ∧
  (∀ slot, slot ∈ doccare_time_slots r.2 ->
           (∃ d, d ∈ sampleDoctors ∧ TimeSlot.doctorId slot = Doctor.uid d) ∧
           TimeSlot.time slot ∈ times).
Proof.
  intros r. subst r. unfold tempInitializeSampleData.
  cbn [fst snd doccare_appointments doccare_current_user doccare_users
       doccare_time_slots save_USERS save_TIME_SLOTS SampleCounts.timeSlots].
  set (week := fun d uid =>
         concat (map (fun i => sampleDay (dateStr d i) (random d i) uid)
                     (seq 1 7))).
  assert (Hslots :
    concat (imap (fun d doctor_ =>
                    concat (map (fun i => sampleDay (dateStr d i) (random d i)
                                                     (Doctor.uid doctor_))
                                (seq 1 7))) sampleDoctors)
    = week 0 "doctor_1" ++ week 1 "doctor_2" ++ week 2 "doctor_3").
  { unfold sampleDoctors, week. cbn [imap concat Doctor.uid compose].
    by rewrite app_nil_r. }
  rewrite Hslots.
  assert (Hall : ∀ slot,
            slot ∈ week 0 "doctor_1" ++ week 1 "doctor_2" ++ week 2 "doctor_3" ->
            ((∃ d, d ∈ sampleDoctors ∧ TimeSlot.doctorId slot = Doctor.uid d) ∧
             TimeSlot.time slot ∈ times) ∧
            TimeSlot.isBooked slot = false).
  { intros slot Hin. rewrite !elem_of_app in Hin.
    destruct Hin as [Hin|[Hin|Hin]];
      apply (sampleWeek_slots (dateStr _) (random _)) in Hin;
      destruct Hin as (Hd & Ht & Hb); (split; [split; [|done]|done]);
      unfold sampleDoctors; eexists.
    - split; [left|exact Hd].
    - split; [right; left|exact Hd].
    - split; [right; right; left|exact Hd]. }
  split_and!; try done.
  - pose proof (sampleWeek_length (dateStr 0) (random 0) "doctor_1").
    pose proof (sampleWeek_length (dateStr 1) (random 1) "doctor_2").
    pose proof (sampleWeek_length (dateStr 2) (random 2) "doctor_3").
    rewrite !length_app. fold (week 0 "doctor_1") in *.
    fold (week 1 "doctor_2") in *. fold (week 2 "doctor_3") in *. lia.
  - pose proof (sampleWeek_length (dateStr 0) (random 0) "doctor_1").
    pose proof (sampleWeek_length (dateStr 1) (random 1) "doctor_2").
    pose proof (sampleWeek_length (dateStr 2) (random 2) "doctor_3").
    rewrite !length_app. fold (week 0 "doctor_1") in *.
    fold (week 1 "doctor_2") in *. fold (week 2 "doctor_3") in *. lia.
  - unfold tempGetAvailableSlots, tempGetTimeSlots. simpl.
    apply filter_all. intros slot Hin. by apply Hall.
  - intros slot Hin. by apply Hall.
Qed.

(** X30. After [tempClearAllData] no reader of localStorage finds
    anything: no user under any uid or email, no current user, no
    doctor, no slot and no appointment, whatever the filter; and the
    first user created afterwards is accepted. *)
Theorem tempClearAllData_forgets ls uid email doctorId userId role userData :
  let cleared := tempClearAllData ls in
  (tempGetUser uid cleared).1 = None ∧
  (tempGetUserByEmail email cleared).1 = None ∧
  tempGetCurrentUser cleared = None ∧
  (tempGetDoctors cleared).1 = [] ∧
  (tempGetTimeSlots doctorId cleared).1 = [] ∧
  (tempGetAvailableSlots doctorId cleared).1 = [] ∧
  (tempGetAppointments userId role cleared).1 = [] ∧
  (tempCreateUser userData cleared).1 = Returned userData.
Proof.
  intros cleared. subst cleared.
  unfold tempClearAllData, tempGetUser, tempGetUserByEmail, tempGetCurrentUser,
    tempGetDoctors, tempGetAvailableSlots, tempGetTimeSlots,
    tempGetAppointments, tempCreateUser.
  simpl. split_and!; try done.
  - by destruct doctorId as [[|]|].
  - by destruct doctorId as [[|]|].
  - by destruct userId as [[|]|].
Qed.
